(** * GreenZest backend: orders, products and users

    A shallow embedding of the Mongoose models (src/models/Order.js,
    src/models/Product.js, src/models/User.js and the user schema variant
    src/unnamed/part_005) and of the route handlers that touch them
    (src/unnamed/part_001 orders, src/routes/auth.js and src/unnamed/part_002
    login/signup, src/unnamed/part_003 admin).

    Conventions.
    - A collection is a Rocq value: orders as a list in insertion order (so
      [countDocuments] is its length), products and users as [gmap string _]
      keyed by their [_id] string.
    - JavaScript numbers that can be fractional (prices, totals, stock,
      ratings, impact counters) are [Q]; counters that the code only ever
      increments by integers are [Z] or [nat]. Floating-point rounding is not
      modelled.
    - A Mongoose [save] is: schema validation first (Mongoose runs its built-in
      validation hook before any user [pre('save')] hook), then the
      [pre('save')] hooks in declaration order, then the write (with the
      unique indexes), then the [post('save')] hooks.
    - A route returns its HTTP status code together with the new store; a
      rejected Mongoose promise inside the [try] block becomes a 500. *)

From stdpp Require Import base list strings gmap pretty.
From Stdlib Require Import QArith Qround ZArith Ascii Lqa Sorted.

Open Scope nat_scope.
Open Scope string_scope.

(** Reasons a Mongoose operation rejects. *)
Inductive MongoError := ValidationError | DuplicateKey | CastError.

Definition in_enum (s : string) (l : list string) : bool :=
  existsb (String.eqb s) l.

(** Mongoose's [required] validator on a String path: present and non-empty. *)
Definition required_string (s : option string) : bool :=
  match s with Some v => negb (String.eqb v "") | None => false end.

(** [String.prototype.length] of a UTF-8 encoded string counts UTF-16 code
    units: a continuation byte adds nothing, the lead byte of a four-byte
    sequence adds two. *)
Fixpoint js_length (s : string) : nat :=
  match s with
  | EmptyString => 0
  | String c r =>
      let n := nat_of_ascii c in
      (if Nat.leb 128 n && Nat.leb n 191 then 0 else if Nat.leb 240 n then 2 else 1)
      + js_length r
  end.

(** The white space [String.prototype.trim] removes (ECMAScript WhiteSpace
    and LineTerminator), as UTF-8 byte sequences: U+0009 to U+000D, U+0020,
    U+00A0, U+1680, U+2000 to U+200A, U+2028, U+2029, U+202F, U+205F, U+3000
    and U+FEFF. *)
Definition js_space_utf8 : list (list nat) :=
  ([[9]; [10]; [11]; [12]; [13]; [32]; [194; 160]; [225; 154; 128]]
   ++ map (fun k => [226; 128; 128 + k]) (seq 0 11)
   ++ [[226; 128; 168]; [226; 128; 169]; [226; 128; 175]; [226; 129; 159];
       [227; 128; 128]; [239; 187; 191]])%list.

Definition byte_prefix (pre : list nat) (l : list ascii) : bool :=
  bool_decide (take (length pre) (map nat_of_ascii l) = pre).

(** The length in bytes of the white-space character [l] starts with, if any. *)
Definition space_prefix (spaces : list (list nat)) (l : list ascii) : option nat :=
  match List.find (fun pre => byte_prefix pre l) spaces with
  | Some pre => Some (length pre)
  | None => None
  end.

(** Drops white-space characters from the front; every step drops at least
    one byte, so [length l] steps are enough. *)
Fixpoint drop_space_chars (spaces : list (list nat)) (fuel : nat) (l : list ascii)
  : list ascii :=
  match fuel with
  | 0 => l
  | S f =>
      match space_prefix spaces l with
      | Some n => drop_space_chars spaces f (drop n l)
      | None => l
      end
  end.

(** [String.prototype.trim], and the [trim: true] setter of Mongoose. The back
    is trimmed on the reversed bytes with the reversed sequences. *)
Definition js_trim (s : string) : string :=
  let l := String.list_ascii_of_string s in
  let front := drop_space_chars js_space_utf8 (length l) l in
  let back := drop_space_chars (map (@rev nat) js_space_utf8) (length front) (rev front) in
  String.string_of_list_ascii (rev back).

(* ------------------------------------------------------------------ *)
(** ** Products (src/models/Product.js) *)

Record Review := mkReview {
  review_user : option string;
  rating : Q }.

Record Product := mkProduct {
  product_name : string;
  description : string;
  price : Q;
  category : string;
  image : string;
  stock : Q;
  reviews : list Review;
  averageRating : Q;
  reviewCount : Z;
  sku : option string }.

Definition set_stock (p : Product) (s : Q) : Product :=
  mkProduct (product_name p) (description p) (price p) (category p) (image p)
    s (reviews p) (averageRating p) (reviewCount p) (sku p).

(** [Product.findByIdAndUpdate(id, { $inc: { stock: d } })]: no validators run,
    a missing id updates nothing. *)
Definition inc_stock (pid : string) (d : Q) (ps : gmap string Product)
  : gmap string Product :=
  alter (fun p => set_stock p (stock p + d)%Q) pid ps.

(* ------------------------------------------------------------------ *)
(** ** Orders (src/models/Order.js) *)

Record OrderItem := mkItem {
  item_product : option string;   (* ObjectId, required *)
  item_name : string;
  item_quantity : Z;
  item_price : Q }.

Record Order := mkOrder {
  order_id : string;              (* _id *)
  orderNumber : option string;
  order_user : string;
  items : list OrderItem;
  total : option Q;
  status : option string;         (* [None]: the path is unset *)
  paymentMethod : option string }.

Definition set_orderNumber (o : Order) (n : option string) : Order :=
  mkOrder (order_id o) n (order_user o) (items o) (total o) (status o) (paymentMethod o).
Definition set_total (o : Order) (t : option Q) : Order :=
  mkOrder (order_id o) (orderNumber o) (order_user o) (items o) t (status o) (paymentMethod o).
(** [order.status = v]; assigning [undefined] unsets the path. *)
Definition assign_status (o : Order) (v : option string) : Order :=
  mkOrder (order_id o) (orderNumber o) (order_user o) (items o) (total o) v (paymentMethod o).
Definition set_status (o : Order) (s : string) : Order := assign_status o (Some s).

(** [v === s] for a path [v] that may be unset. *)
Definition js_eq_opt (v : option string) (s : string) : bool :=
  match v with Some x => String.eqb x s | None => false end.

Definition order_status_enum : list string :=
  ["pending"; "processing"; "shipped"; "delivered"; "cancelled"].
Definition payment_method_enum : list string :=
  ["card"; "paypal"; "cash_on_delivery"].

Definition validate_item (it : OrderItem) : bool :=
  bool_decide (is_Some (item_product it)) && negb (String.eqb (item_name it) "")
  && (1 <=? item_quantity it)%Z && Qle_bool 0 (item_price it).

(** The [enum] validator of [status]; an unset path is not checked (the
    path is not [required]). *)
Definition status_valid (v : option string) : bool :=
  match v with Some s => in_enum s order_status_enum | None => true end.

(** The schema validators of [orderSchema]. *)
Definition validate_order (o : Order) : bool :=
  required_string (orderNumber o)
  && forallb validate_item (items o)
  && match total o with Some t => Qle_bool 0 t | None => false end
  && status_valid (status o)
  && match paymentMethod o with
     | Some p => in_enum p payment_method_enum
     | None => false
     end.

(** [String(n).padStart(4, '0')] *)
Fixpoint zeros (n : nat) : string :=
  match n with 0 => "" | S k => String "0"%char (zeros k) end.
Definition padStart4 (s : string) : string := zeros (4 - String.length s) +:+ s.

(** [`CMD-${String(count + 1).padStart(4, '0')}`] *)
Definition order_number_of (count : nat) : string :=
  "CMD-" +:+ padStart4 (pretty (S count)).

(** First [pre('save')] hook: number a new order from [countDocuments()]. *)
Definition pre_save_orderNumber (isNew : bool) (count : nat) (o : Order) : Order :=
  if isNew then set_orderNumber o (Some (order_number_of count)) else o.

(** [this.items.reduce((sum, item) => sum + (item.price * item.quantity), 0)] *)
Definition items_total (its : list OrderItem) : Q :=
  fold_left (fun sum it => sum + item_price it * inject_Z (item_quantity it))%Q its 0%Q.

(** Second [pre('save')] hook. *)
Definition pre_save_total (o : Order) : Order :=
  match items o with
  | [] => o
  | _ => set_total o (Some (items_total (items o)))
  end.

Record Store := mkStore {
  orders : list Order;
  products : gmap string Product }.

(** [post('save')] hook: a pending order takes its quantities out of stock. *)
Definition post_save_stock (o : Order) (ps : gmap string Product) : gmap string Product :=
  if js_eq_opt (status o) "pending" then
    fold_left (fun acc it =>
      match item_product it with
      | Some pid => inc_stock pid (- inject_Z (item_quantity it))%Q acc
      | None => acc
      end) (items o) ps
  else ps.

Definition replace_order (o : Order) (os : list Order) : list Order :=
  map (fun x => if String.eqb (order_id x) (order_id o) then o else x) os.

Definition same_number (a b : Order) : bool :=
  match orderNumber a, orderNumber b with
  | Some x, Some y => String.eqb x y
  | _, _ => false
  end.

(** [order.save()] *)
Definition order_save (isNew : bool) (o : Order) (st : Store)
  : MongoError + (Order * Store) :=
  if negb (validate_order o) then inl ValidationError else
  let o1 := pre_save_orderNumber isNew (length (orders st)) o in
  let o2 := pre_save_total o1 in
  if isNew then
    if existsb (same_number o2) (orders st) then inl DuplicateKey
    else inr (o2, mkStore (orders st ++ [o2]) (post_save_stock o2 (products st)))
  else inr (o2, mkStore (replace_order o2 (orders st)) (post_save_stock o2 (products st))).

(** [Order.deleteOne({ _id })]: used only to state what a deletion does to
    the numbering; no route of the repository deletes orders. *)
Definition order_delete (oid : string) (st : Store) : Store :=
  mkStore (filter (fun x => negb (String.eqb (order_id x) oid)) (orders st)) (products st).

(* ------------------------------------------------------------------ *)
(** ** POST /api/orders (src/unnamed/part_001, lines 181-280) *)

Record ReqItem := mkReqItem {
  ri_productId : string;
  ri_product : option string;     (* a [product] key, if the client sends one *)
  ri_name : string;
  ri_price : Q;
  ri_quantity : Z }.

Record OrderReq := mkOrderReq {
  req_items : list ReqItem;
  req_total : option Q;
  req_paymentMethod : string }.

(** The express-validator chain of the route. *)
Definition validate_order_req (r : OrderReq) : bool :=
  forallb (fun ri =>
    negb (String.eqb (ri_productId ri) "") && negb (String.eqb (ri_name ri) "")
    && Qle_bool 0 (ri_price ri) && (1 <=? ri_quantity ri)%Z) (req_items r)
  && match req_total r with Some t => Qle_bool 0 t | None => false end
  && in_enum (req_paymentMethod r) ["Stripe"; "PayPal"; "Livraison"].

(** Mongoose casting of a request item into the item subdocument: keys that
    are not schema paths ([productId]) are dropped. *)
Definition item_of_req (ri : ReqItem) : OrderItem :=
  mkItem (ri_product ri) (ri_name ri) (ri_quantity ri) (ri_price ri).

(** [new Order({ user, items, total, paymentMethod, ... })]; [status] takes its
    default, [orderNumber] is not given. *)
Definition new_order (oid uid : string) (r : OrderReq) : Order :=
  mkOrder oid None uid (map item_of_req (req_items r)) (req_total r) (Some "pending")
    (Some (req_paymentMethod r)).

(** The handler up to the 201 response. The loyalty-point update and the
    notifications that follow a successful save do not change the order or
    the products and are left out. *)
Definition create_order_route (oid uid : string) (r : OrderReq) (st : Store)
  : Z * option Order * Store :=
  if negb (validate_order_req r) then (400%Z, None, st) else
  match order_save true (new_order oid uid r) st with
  | inl _ => (500%Z, None, st)
  | inr (o, st') => (201%Z, Some o, st')
  end.

(* ------------------------------------------------------------------ *)
(** ** POST /api/orders/:id/cancel (src/unnamed/part_001, lines 355-385) *)

(** [Order.findOne({ _id: req.params.id, user: req.user._id })] *)
Definition find_user_order (oid uid : string) (os : list Order) : option Order :=
  List.find (fun o => String.eqb (order_id o) oid && String.eqb (order_user o) uid) os.

(** The cancellation notification (type 'order', a valid type) is created only
    after a successful save and does not touch orders or products. *)
Definition cancel_order_route (oid uid : string) (st : Store) : Z * Store :=
  match find_user_order oid uid (orders st) with
  | None => (404%Z, st)
  | Some o =>
      if js_eq_opt (status o) "Annulée" || js_eq_opt (status o) "Livrée" then (400%Z, st)
      else match order_save false (set_status o "Annulée") st with
           | inl _ => (500%Z, st)
           | inr (_, st') => (200%Z, st')
           end
  end.

(* ------------------------------------------------------------------ *)
(** ** PUT /api/admin/orders/:id/status (src/unnamed/part_003 and
       src/routes/admin.js, lines 59-104) *)

(** [post('findOneAndUpdate')] hook of Order.js: [doc] is the document the
    query returns, [upd] is [this._update.status]. *)
Definition restore_stock_hook (upd : option string) (doc : option Order)
  (ps : gmap string Product) : gmap string Product :=
  match doc with
  | Some d =>
      if js_eq_opt upd "cancelled" && negb (js_eq_opt (status d) "cancelled") then
        fold_left (fun acc it =>
          match item_product it with
          | Some pid => inc_stock pid (inject_Z (item_quantity it)) acc
          | None => acc
          end) (items d) ps
      else ps
  | None => ps
  end.

(** [this._update] as the post hook sees it, on the [status] path: its
    top-level key and its [$set] entry. *)
Record StatusUpdate := mkStatusUpdate {
  upd_status : option string;       (* this._update.status *)
  upd_set_status : option string }. (* this._update.$set.status *)

(** The query casts the update [{ status }] before it runs: a key that is not
    an operator moves under [$set]. *)
Definition cast_status_update (s : string) : StatusUpdate :=
  mkStatusUpdate None (Some s).

(** [Order.findByIdAndUpdate(id, { status }, { new: return_new })]: no
    validators run; the query returns the updated document when [return_new]
    holds and the stored one otherwise, and that document is what the post
    hook receives. *)
Definition order_find_by_id_and_update_status (oid s : string) (return_new : bool)
  (st : Store) : option Order * Store :=
  match List.find (fun o => String.eqb (order_id o) oid) (orders st) with
  | None => (None, mkStore (orders st) (restore_stock_hook (upd_status (cast_status_update s)) None (products st)))
  | Some o =>
      let o' := set_status o s in
      let doc := if return_new then o' else o in
      (Some doc, mkStore (replace_order o' (orders st))
                   (restore_stock_hook (upd_status (cast_status_update s)) (Some doc) (products st)))
  end.

(** [type] enum of the Notification schema (src/unnamed/part_004). *)
Definition notification_type_enum : list string := ["order"; "promotion"; "news"; "system"].

(** The admin handler: after the update it creates a notification of type
    'order_update' for the four statuses of [statusMessages]; that
    [Notification.create] is what decides between 200 and 500. *)
Definition admin_update_order_status (oid s : string) (st : Store) : Z * Store :=
  let '(doc, st') := order_find_by_id_and_update_status oid s true st in
  match doc with
  | None => (404%Z, st')
  | Some _ =>
      if in_enum s ["processing"; "shipped"; "delivered"; "cancelled"] then
        (if in_enum "order_update" notification_type_enum then (200%Z, st') else (500%Z, st'))
      else (200%Z, st')
  end.

(* ------------------------------------------------------------------ *)
(** ** Users (src/models/User.js and its variant src/unnamed/part_005) *)

(** The tier enum: spelled 'Bronze', 'Silver', ... in User.js and 'bronze',
    'silver', ... in part_005. *)
Inductive Tier := Bronze | Silver | Gold | Platinum.

Global Instance Tier_eq_dec : EqDecision Tier.
Proof. solve_decision. Defined.

(** The fields of both user schemas that the handlers below read or write:
    [loginAttempts] is the counter of User.js, [failedLoginAttempts] the one
    of part_005. *)
Record User := mkUser {
  user_id : string;
  user_name : string;
  email : string;
  password : option string;
  role : string;
  isActive : bool;
  totalCO2Saved : Q;
  totalWaterSaved : Q;
  totalOrangesRecycled : Q;
  loyaltyPoints : Z;
  tier : Tier;
  loginAttempts : nat;
  failedLoginAttempts : nat;
  lockUntil : option Z }.

Definition set_loyaltyPoints (u : User) (p : Z) : User :=
  mkUser (user_id u) (user_name u) (email u) (password u) (role u) (isActive u)
    (totalCO2Saved u) (totalWaterSaved u) (totalOrangesRecycled u) p (tier u)
    (loginAttempts u) (failedLoginAttempts u) (lockUntil u).
Definition set_tier (u : User) (t : Tier) : User :=
  mkUser (user_id u) (user_name u) (email u) (password u) (role u) (isActive u)
    (totalCO2Saved u) (totalWaterSaved u) (totalOrangesRecycled u) (loyaltyPoints u) t
    (loginAttempts u) (failedLoginAttempts u) (lockUntil u).
Definition set_impact (u : User) (co2 water oranges : Q) : User :=
  mkUser (user_id u) (user_name u) (email u) (password u) (role u) (isActive u)
    co2 water oranges (loyaltyPoints u) (tier u)
    (loginAttempts u) (failedLoginAttempts u) (lockUntil u).
Definition set_loginAttempts (u : User) (n : nat) : User :=
  mkUser (user_id u) (user_name u) (email u) (password u) (role u) (isActive u)
    (totalCO2Saved u) (totalWaterSaved u) (totalOrangesRecycled u) (loyaltyPoints u) (tier u)
    n (failedLoginAttempts u) (lockUntil u).
Definition set_failedLoginAttempts (u : User) (n : nat) : User :=
  mkUser (user_id u) (user_name u) (email u) (password u) (role u) (isActive u)
    (totalCO2Saved u) (totalWaterSaved u) (totalOrangesRecycled u) (loyaltyPoints u) (tier u)
    (loginAttempts u) n (lockUntil u).
Definition set_lockUntil (u : User) (l : option Z) : User :=
  mkUser (user_id u) (user_name u) (email u) (password u) (role u) (isActive u)
    (totalCO2Saved u) (totalWaterSaved u) (totalOrangesRecycled u) (loyaltyPoints u) (tier u)
    (loginAttempts u) (failedLoginAttempts u) l.
Definition set_password (u : User) (p : option string) : User :=
  mkUser (user_id u) (user_name u) (email u) p (role u) (isActive u)
    (totalCO2Saved u) (totalWaterSaved u) (totalOrangesRecycled u) (loyaltyPoints u) (tier u)
    (loginAttempts u) (failedLoginAttempts u) (lockUntil u).
Definition set_role (u : User) (r : string) : User :=
  mkUser (user_id u) (user_name u) (email u) (password u) r (isActive u)
    (totalCO2Saved u) (totalWaterSaved u) (totalOrangesRecycled u) (loyaltyPoints u) (tier u)
    (loginAttempts u) (failedLoginAttempts u) (lockUntil u).

(** [User.create({ name, email, password })]: every other field takes its
    schema default. *)
Definition new_user (id name mail hashed : string) : User :=
  mkUser id name mail (Some hashed) "user" true 0 0 0 0 Bronze 0 0 None.

(** *** Loyalty tier *)

(** [userSchema.methods.updateTier] (User.js): the if-chain, then a save
    only when the tier changes. *)
Definition tier_for (points : Z) : Tier :=
  if (1000 <=? points)%Z then Platinum
  else if (500 <=? points)%Z then Gold
  else if (100 <=? points)%Z then Silver
  else Bronze.

Definition updateTier (u : User) : User :=
  let newTier := tier_for (loyaltyPoints u) in
  if decide (tier u = newTier) then u else set_tier u newTier.

(** [addLoyaltyPoints(points)] (User.js): [points || 0] is [points] on an
    integer. *)
Definition addLoyaltyPoints (u : User) (points : Z) : User :=
  updateTier (set_loyaltyPoints u (loyaltyPoints u + points)).

(** The tier update written inline in part_005: no [else] branch, so below
    100 points the tier is left as it was. *)
Definition retier_inline (u : User) : User :=
  if (1000 <=? loyaltyPoints u)%Z then set_tier u Platinum
  else if (500 <=? loyaltyPoints u)%Z then set_tier u Gold
  else if (100 <=? loyaltyPoints u)%Z then set_tier u Silver
  else u.

(** [updateLoyaltyPoints(points)] (part_005). *)
Definition updateLoyaltyPoints (u : User) (points : Z) : User :=
  retier_inline (set_loyaltyPoints u (loyaltyPoints u + points)).

(** [updateImpact(co2Saved, waterSaved, orangesRecycled)] (part_005):
    1 point per whole kg of CO2, [Math.floor]. *)
Definition updateImpact (u : User) (co2Saved waterSaved orangesRecycled : Q) : User :=
  let u1 := set_impact u (totalCO2Saved u + co2Saved) (totalWaterSaved u + waterSaved)
              (totalOrangesRecycled u + orangesRecycled) in
  retier_inline (set_loyaltyPoints u1 (loyaltyPoints u1 + Qfloor co2Saved)).

Inductive LoyaltyOp :=
  | OpUpdateLoyaltyPoints (points : Z)
  | OpAddLoyaltyPoints (points : Z)
  | OpUpdateImpact (co2Saved waterSaved orangesRecycled : Q).

Definition run_loyalty_op (u : User) (op : LoyaltyOp) : User :=
  match op with
  | OpUpdateLoyaltyPoints p => updateLoyaltyPoints u p
  | OpAddLoyaltyPoints p => addLoyaltyPoints u p
  | OpUpdateImpact c w o => updateImpact u c w o
  end.

Definition run_loyalty_ops (ops : list LoyaltyOp) (u : User) : User :=
  fold_left run_loyalty_op ops u.

Definition op_nonneg (op : LoyaltyOp) : Prop :=
  match op with
  | OpUpdateLoyaltyPoints p | OpAddLoyaltyPoints p => (0 <= p)%Z
  | OpUpdateImpact c w o => (0 <= c)%Q /\ (0 <= w)%Q /\ (0 <= o)%Q
  end.

(** The spec's reading of the tier: the highest tier whose threshold does
    not exceed the points, with thresholds 0, 100, 500, 1000. *)
Definition tier_threshold (t : Tier) : Z :=
  match t with Bronze => 0 | Silver => 100 | Gold => 500 | Platinum => 1000 end%Z.
Definition tier_rank (t : Tier) : nat :=
  match t with Bronze => 0 | Silver => 1 | Gold => 2 | Platinum => 3 end.
Definition highest_tier_within (points : Z) (t : Tier) : Prop :=
  (tier_threshold t <= points)%Z
  /\ forall t', (tier_threshold t' <= points)%Z -> tier_rank t' <= tier_rank t.
Definition tier_correct (u : User) : Prop := highest_tier_within (loyaltyPoints u) (tier u).

(** *** Login and lockout *)

Inductive LoginResult := LoginOk | InvalidCredentials | Deactivated | AccountLocked.

Definition login_status (r : LoginResult) : Z :=
  match r with
  | LoginOk => 200 | InvalidCredentials | Deactivated => 401 | AccountLocked => 423
  end%Z.

(** [lockUntil && lockUntil > Date.now()] *)
Definition locked_at (u : User) (now : Z) : bool :=
  match lockUntil u with Some l => (now <? l)%Z | None => false end.

(** POST /api/auth/login of src/routes/auth.js (lines 118-169), for a request
    that passed validation and whose email exists; [pw_ok] is the bcrypt
    comparison. *)
Definition login_auth (now : Z) (pw_ok : bool) (u : User) : LoginResult * User :=
  if locked_at u now then (AccountLocked, u)
  else if negb (isActive u) then (Deactivated, u)
  else if negb pw_ok then
    let u1 := set_failedLoginAttempts u (S (failedLoginAttempts u)) in
    let u2 := if Nat.leb 5 (failedLoginAttempts u1)
              then set_lockUntil u1 (Some (now + 15 * 60 * 1000)%Z) else u1 in
    (InvalidCredentials, u2)
  else (LoginOk, set_lockUntil (set_failedLoginAttempts u 0) None).

(** [incLoginAttempts] of User.js. *)
Definition incLoginAttempts (now : Z) (u : User) : User :=
  let bump :=
    let u1 := set_loginAttempts u (S (loginAttempts u)) in
    if Nat.leb 5 (S (loginAttempts u)) && negb (locked_at u now)
    then set_lockUntil u1 (Some (now + 2 * 60 * 60 * 1000)%Z) else u1 in
  match lockUntil u with
  | Some l => if (l <? now)%Z then set_lockUntil (set_loginAttempts u 1) None else bump
  | None => bump
  end.

(** POST /api/auth/login of src/unnamed/part_002 (lines 66-135) with the
    User.js methods; [resetLoginAttempts] unsets both fields, which read back
    as the default 0 and no lock. *)
Definition login_legacy (now : Z) (pw_ok : bool) (u : User) : LoginResult * User :=
  if locked_at u now then (AccountLocked, u)
  else if negb pw_ok then (InvalidCredentials, incLoginAttempts now u)
  else (LoginOk, set_lockUntil (set_loginAttempts u 0) None).

(** A sequence of login attempts [(time, password matches)] on one account. *)
Fixpoint run_logins (login : Z -> bool -> User -> LoginResult * User)
  (atts : list (Z * bool)) (u : User) : list LoginResult * User :=
  match atts with
  | [] => ([], u)
  | (t, p) :: rest =>
      let '(r, u1) := login t p u in
      let '(rs, u2) := run_logins login rest u1 in
      (r :: rs, u2)
  end.

(* ------------------------------------------------------------------ *)
(** ** Product saves (src/models/Product.js) *)

Definition product_category_enum : list string :=
  ["cosmetics"; "cleaning"; "kitchen"; "bathroom"; "accessories"; "gifts"].

(** [rating: { type: Number, required: true, min: 1, max: 5 }] *)
Definition validate_review (r : Review) : bool :=
  Qle_bool 1 (rating r) && Qle_bool (rating r) 5.

(** The validators of the paths of [Product] that the record carries:
    required strings, [price] and [stock] with [min: 0], the category enum and
    the review ratings. *)
Definition validate_product (p : Product) : bool :=
  negb (String.eqb (product_name p) "")
  && negb (String.eqb (description p) "")
  && Qle_bool 0 (price p)
  && in_enum (category p) product_category_enum
  && negb (String.eqb (image p) "")
  && Qle_bool 0 (stock p)
  && forallb validate_review (reviews p).

Definition set_rating (p : Product) (avg : Q) (n : Z) : Product :=
  mkProduct (product_name p) (description p) (price p) (category p) (image p)
    (stock p) (reviews p) avg n (sku p).

Definition set_name (p : Product) (n : string) : Product :=
  mkProduct n (description p) (price p) (category p) (image p)
    (stock p) (reviews p) (averageRating p) (reviewCount p) (sku p).

Definition set_sku (p : Product) (v : option string) : Product :=
  mkProduct (product_name p) (description p) (price p) (category p) (image p)
    (stock p) (reviews p) (averageRating p) (reviewCount p) v.

(** The document [Product.create(body)] builds: the [trim] setter of [name]
    applied ([subcategory] is not carried). *)
Definition product_of_body (p : Product) : Product := set_name p (js_trim (product_name p)).

Definition ascii_upper (c : ascii) : ascii :=
  let n := nat_of_ascii c in
  if Nat.leb 97 n && Nat.leb n 122 then ascii_of_nat (n - 32) else c.

(** [toUpperCase] on ASCII text: the hook below only applies it to a
    [category] that has passed its enum. *)
Fixpoint string_upper (s : string) : string :=
  match s with
  | EmptyString => EmptyString
  | String c r => String (ascii_upper c) (string_upper r)
  end.

(** [!this.sku]: unset or the empty string. *)
Definition sku_falsy (v : option string) : bool :=
  match v with Some x => String.eqb x "" | None => true end.

(** First [pre('save')] hook:
    [`GZ-${this.category.toUpperCase().substring(0, 3)}-${String(count + 1).padStart(4, '0')}`]
    for a new document without a [sku]; [count] is [countDocuments()]. *)
Definition pre_save_sku (isNew : bool) (count : nat) (p : Product) : Product :=
  if isNew && sku_falsy (sku p) then
    set_sku p (Some ("GZ-" +:+ String.substring 0 3 (string_upper (category p)) +:+ "-"
                     +:+ padStart4 (pretty (S count))))
  else p.

(** The unique, sparse index on [sku]: a document without one is not
    indexed. *)
Definition sku_taken (p : Product) (ps : gmap string Product) : bool :=
  match sku p with
  | Some v => existsb (fun kv => js_eq_opt (sku kv.2) v) (map_to_list ps)
  | None => false
  end.

(** Second [pre('save')] hook: recompute [averageRating] and [reviewCount]
    when the review list is non-empty. *)
Definition pre_save_rating (p : Product) : Product :=
  match reviews p with
  | [] => p
  | rs =>
      let totalRating := fold_left (fun sum r => sum + rating r)%Q rs 0%Q in
      set_rating p (totalRating / inject_Z (Z.of_nat (length rs)))%Q (Z.of_nat (length rs))
  end.

(** [Product.create(body)] into the collection [ps], the only way the code
    saves a product: the setters, validation, the two [pre('save')] hooks in
    their order, then the insert, which the unique [sku] index can refuse. *)
Definition product_save (ps : gmap string Product) (body : Product) : MongoError + Product :=
  let p := product_of_body body in
  if negb (validate_product p) then inl ValidationError else
  let p' := pre_save_rating (pre_save_sku true (size ps) p) in
  if sku_taken p' ps then inl DuplicateKey else inr p'.

(** POST /api/admin/products (src/routes/admin.js, lines 129-144):
    [Product.create(req.body)], 201 on success, 500 on any error. *)
Definition create_product_route (pid : string) (body : Product)
  (ps : gmap string Product) : Z * gmap string Product :=
  match product_save ps body with
  | inr p => (201%Z, <[pid := p]> ps)
  | inl _ => (500%Z, ps)
  end.

(** The arithmetic mean of the ratings, as the specification words it. *)
Definition ratings_mean (rs : list Review) : Q :=
  (fold_right (fun r s => rating r + s) 0 rs / inject_Z (Z.of_nat (length rs)))%Q.

(* ------------------------------------------------------------------ *)
(** ** Sequences of order writes *)

(** Writes to the Order collection: [new Order(..).save()], [order.save()] on
    an existing order, and a deletion by id. *)
Inductive OrderOp :=
| OpCreate (o : Order)
| OpSave (o : Order)
| OpDelete (oid : string).

Definition is_delete (op : OrderOp) : bool :=
  match op with OpDelete _ => true | _ => false end.

(** Runs the writes in order; a failed save leaves the store as it was. The
    first component lists the order numbers given to the created orders. *)
Fixpoint run_order_ops (ops : list OrderOp) (st : Store) : list string * Store :=
  match ops with
  | [] => ([], st)
  | OpCreate o :: rest =>
      match order_save true o st with
      | inr (o', st') =>
          let '(ns, st'') := run_order_ops rest st' in
          (match orderNumber o' with Some n => n :: ns | None => ns end, st'')
      | inl _ => run_order_ops rest st
      end
  | OpSave o :: rest =>
      match order_save false o st with
      | inr (_, st') => run_order_ops rest st'
      | inl _ => run_order_ops rest st
      end
  | OpDelete oid :: rest => run_order_ops rest (order_delete oid st)
  end.

(* ------------------------------------------------------------------ *)
(** ** JSON responses carrying a user *)

(** JavaScript values as [res.json] receives them. *)
#[warnings="-register-all"]
Inductive jsval :=
| JStr (s : string)
| JNum (q : Q)
| JBool (b : bool)
| JNull
| JUndefined
| JObj (kvs : list (string * jsval)).

(** What [JSON.stringify] sends: object keys whose value is [undefined] are
    dropped, at every depth. *)
Fixpoint wire (v : jsval) : jsval :=
  match v with
  | JObj kvs =>
      JObj ((fix go (l : list (string * jsval)) : list (string * jsval) :=
               match l with
               | [] => []
               | (_, JUndefined) :: r => go r
               | (k, x) :: r => (k, wire x) :: go r
               end) kvs)
  | _ => v
  end.

(** [obj[k]] on an object, [None] when the key is absent. *)
Definition js_get (k : string) (v : jsval) : option jsval :=
  match v with
  | JObj kvs => snd <$> List.find (fun kv => String.eqb (fst kv) k) kvs
  | _ => None
  end.

(** [delete obj[k]] *)
Definition js_delete (k : string) (kvs : list (string * jsval)) : list (string * jsval) :=
  filter (fun kv => negb (String.eqb (fst kv) k)) kvs.

Definition tier_string (t : Tier) : string :=
  match t with Bronze => "Bronze" | Silver => "Silver" | Gold => "Gold" | Platinum => "Platinum" end.

Definition js_opt_str (s : option string) : jsval :=
  match s with Some v => JStr v | None => JUndefined end.

(** A user document as [toJSON] renders it: every path of the document, the
    password included when it is set. *)
Definition user_doc_json (u : User) : jsval :=
  JObj [("_id", JStr (user_id u)); ("name", JStr (user_name u)); ("email", JStr (email u));
        ("password", js_opt_str (password u)); ("role", JStr (role u));
        ("isActive", JBool (isActive u));
        ("totalCO2Saved", JNum (totalCO2Saved u)); ("totalWaterSaved", JNum (totalWaterSaved u));
        ("totalOrangesRecycled", JNum (totalOrangesRecycled u));
        ("loyaltyPoints", JNum (inject_Z (loyaltyPoints u))); ("tier", JStr (tier_string (tier u)));
        ("loginAttempts", JNum (inject_Z (Z.of_nat (loginAttempts u))));
        ("failedLoginAttempts", JNum (inject_Z (Z.of_nat (failedLoginAttempts u))));
        ("lockUntil", match lockUntil u with Some l => JNum (inject_Z l) | None => JNull end)].

(** [sendUserResponse] (src/routes/auth.js, lines 16-28), used by the signup
    and login routes of that file: [user.password = undefined], then
    [res.json({ success, token, user })]. *)
Definition sendUserResponse (token : string) (u : User) : jsval :=
  let u1 := set_password u None in
  JObj [("success", JBool true); ("token", JStr token); ("user", user_doc_json u1)].

(** The explicit [user] object of POST /api/auth/register and
    POST /api/auth/login in src/unnamed/part_002. *)
Definition legacy_user_object (u : User) : jsval :=
  JObj [("_id", JStr (user_id u)); ("name", JStr (user_name u)); ("email", JStr (email u));
        ("role", JStr (role u)); ("loyaltyPoints", JNum (inject_Z (loyaltyPoints u)));
        ("tier", JStr (tier_string (tier u)));
        ("totalCO2Saved", JNum (totalCO2Saved u)); ("totalWaterSaved", JNum (totalWaterSaved u));
        ("totalOrangesRecycled", JNum (totalOrangesRecycled u))].

Definition legacy_register_response (token : string) (u : User) : jsval :=
  JObj [("success", JBool true); ("message", JStr "Utilisateur créé avec succès");
        ("token", JStr token); ("user", legacy_user_object u)].

Definition legacy_login_response (token : string) (u : User) : jsval :=
  JObj [("success", JBool true); ("message", JStr "Connexion réussie");
        ("token", JStr token); ("user", legacy_user_object u)].

(** [SELECT * FROM users WHERE ...] on the SQLite table of
    src/routes/admin.js (lines 908-929); [ts] stands for the timestamp
    columns and [pw] for the stored bcrypt hash. *)
Definition sqlite_user_row (u : User) (pw ts : string) : list (string * jsval) :=
  [("id", JStr (user_id u)); ("name", JStr (user_name u)); ("email", JStr (email u));
   ("password", JStr pw); ("phone", JNull); ("address_street", JNull);
   ("address_city", JNull); ("address_postalCode", JNull); ("address_country", JNull);
   ("totalCO2Saved", JNum (totalCO2Saved u)); ("totalWaterSaved", JNum (totalWaterSaved u));
   ("totalOrangesRecycled", JNum (totalOrangesRecycled u));
   ("loyaltyPoints", JNum (inject_Z (loyaltyPoints u)));
   ("tier", JStr (tier_string (tier u))); ("memberSince", JStr ts);
   ("isActive", JNum (if isActive u then 1 else 0)); ("lastLogin", JStr ts);
   ("createdAt", JStr ts); ("updatedAt", JStr ts)].

(** The signup and login responses of the SQLite server (src/routes/admin.js,
    lines 996-1003 and 1050-1057): [delete user.password], then
    [res.json({ success, token, user })]. *)
Definition sqlite_auth_response (token : string) (u : User) (pw ts : string) : jsval :=
  JObj [("success", JBool true); ("token", JStr token);
        ("user", JObj (js_delete "password" (sqlite_user_row u pw ts)))].

(** The [user] object of a response, after serialisation. *)
Definition response_user (resp : jsval) : option jsval := js_get "user" (wire resp).

(* ------------------------------------------------------------------ *)
(** ** PUT /api/admin/admins/:id/demote (src/routes/admin.js, lines 369-384) *)

Definition ascii_lower (c : ascii) : ascii :=
  let n := nat_of_ascii c in
  if Nat.leb 65 n && Nat.leb n 90 then ascii_of_nat (n + 32) else c.

Definition is_hex_digit (c : ascii) : bool :=
  let n := nat_of_ascii c in
  (Nat.leb 48 n && Nat.leb n 57) || (Nat.leb 65 n && Nat.leb n 70)
  || (Nat.leb 97 n && Nat.leb n 102).

Fixpoint string_lower (s : string) : string :=
  match s with
  | EmptyString => EmptyString
  | String c r => String (ascii_lower c) (string_lower r)
  end.

Fixpoint all_hex (s : string) : bool :=
  match s with
  | EmptyString => true
  | String c r => is_hex_digit c && all_hex r
  end.

(** Casting a string to an ObjectId, as [findById] does (BSON 6): a
    24-digit hexadecimal string, read case-insensitively; anything else is a
    [CastError]. The cast value is the lowercase hex string that [_id]s
    print as. *)
Definition cast_object_id (s : string) : option string :=
  if Nat.eqb (String.length s) 24 && all_hex s then Some (string_lower s) else None.

(** The validators of User.js on the paths the record carries. *)
Definition validate_user (u : User) : bool :=
  negb (String.eqb (user_name u) "")
  && negb (String.eqb (email u) "")
  && match password u with Some p => Nat.leb 6 (js_length p) | None => false end
  && in_enum (role u) ["user"; "admin"].

(** [doc.save()] of a user document loaded by its id [key]. *)
Definition user_save (key : string) (u : User) (users : gmap string User)
  : MongoError + gmap string User :=
  if validate_user u then inr (<[key := u]> users) else inl ValidationError.

(** The handler for the caller whose id prints as [me] and the path
    parameter [id]; users are keyed by their printed [_id]. *)
Definition demote_admin_route (me id : string) (users : gmap string User)
  : Z * gmap string User :=
  if String.eqb me id then (400%Z, users) else
  match cast_object_id id with
  | None => (500%Z, users)
  | Some k =>
      match users !! k with
      | None => (404%Z, users)
      | Some u =>
          if negb (String.eqb (role u) "admin") then (404%Z, users) else
          match user_save k (set_role u "user") users with
          | inr users' => (200%Z, users')
          | inl _ => (500%Z, users)
          end
      end
  end.

(* ------------------------------------------------------------------ *)
(** ** Notifications (src/unnamed/part_004, lines 1-64) *)

(** A notification document; [action] and [data] are not modelled. *)
Record Notification := mkNotification {
  notif_id : string;        (* _id, printed *)
  notif_user : string;      (* user *)
  ntype : string;           (* type *)
  title : string;
  message : string;
  read : bool;
  createdAt : Z }.

Definition set_read (n : Notification) (b : bool) : Notification :=
  mkNotification (notif_id n) (notif_user n) (ntype n) (title n) (message n) b (createdAt n).

(** The validators of [notificationSchema]. *)
Definition validate_notification (n : Notification) : bool :=
  negb (String.eqb (notif_user n) "")
  && in_enum (ntype n) notification_type_enum
  && negb (String.eqb (title n) "") && Nat.leb (js_length (title n)) 100
  && negb (String.eqb (message n) "") && Nat.leb (js_length (message n)) 500.

(** [doc.save()] of a notification: validation, then the write; a new
    document is appended, a loaded one is written back under its [_id]. *)
Definition notification_save (isNew : bool) (n : Notification) (ns : list Notification)
  : MongoError + list Notification :=
  if negb (validate_notification n) then inl ValidationError
  else if isNew then inr (ns ++ [n])%list
  else inr (map (fun x => if String.eqb (notif_id x) (notif_id n) then n else x) ns).

(** [Notification.createNotification(userId, type, title, message, ...)]:
    [new this({...})] and [save()]; [nid] is the generated [_id] and [now]
    the [createdAt] timestamp. *)
Definition createNotification (nid : string) (now : Z) (uid ty ttl msg : string)
  (ns : list Notification) : MongoError + list Notification :=
  notification_save true (mkNotification nid uid ty ttl msg false now) ns.

(** [Notification.insertMany(docs)] (ordered): every document is validated
    before the write, and a single failure rejects the call with nothing
    written. *)
Definition insertMany (docs ns : list Notification) : MongoError + list Notification :=
  if forallb validate_notification docs then inr (ns ++ docs)%list else inl ValidationError.

(* ------------------------------------------------------------------ *)
(** ** /api/notifications (src/unnamed/part_001, lines 1-168) *)

(** The filter [{ _id: k, user: uid }]. *)
Definition owned_by (k uid : string) (n : Notification) : bool :=
  String.eqb (notif_id n) k && String.eqb (notif_user n) uid.

(** PUT /:id/read (lines 62-89): [findOne], then [markAsRead], which sets
    [read] and saves. A malformed [id] fails the cast inside the [try]. *)
Definition mark_read_route (uid id : string) (ns : list Notification) : Z * list Notification :=
  match cast_object_id id with
  | None => (500%Z, ns)
  | Some k =>
      match List.find (owned_by k uid) ns with
      | None => (404%Z, ns)
      | Some n =>
          match notification_save false (set_read n true) ns with
          | inr ns' => (200%Z, ns')
          | inl _ => (500%Z, ns)
          end
      end
  end.

(** PUT /read-all (lines 94-112): [updateMany({ user, read: false }, { read: true })]. *)
Definition read_all_route (uid : string) (ns : list Notification) : Z * list Notification :=
  (200%Z, map (fun n => if String.eqb (notif_user n) uid && negb (read n)
                        then set_read n true else n) ns).

Fixpoint remove_first {A} (p : A -> bool) (l : list A) : list A :=
  match l with
  | [] => []
  | x :: r => if p x then r else x :: remove_first p r
  end.

(** DELETE /:id (lines 117-142): [findOneAndDelete({ _id, user })]. *)
Definition delete_notification_route (uid id : string) (ns : list Notification)
  : Z * list Notification :=
  match cast_object_id id with
  | None => (500%Z, ns)
  | Some k =>
      match List.find (owned_by k uid) ns with
      | None => (404%Z, ns)
      | Some _ => (200%Z, remove_first (owned_by k uid) ns)
      end
  end.

(** [countDocuments({ user, read: false })] (lines 26-29 and 147-166). *)
Definition unread_count (uid : string) (ns : list Notification) : nat :=
  length (List.filter (fun n => String.eqb (notif_user n) uid && negb (read n)) ns).

(** The contribution of one notification to [unread_count]. *)
Definition unread_ind (v : string) (n : Notification) : nat :=
  if String.eqb (notif_user n) v && negb (read n) then 1 else 0.

Fixpoint insert_newest (n : Notification) (l : list Notification) : list Notification :=
  match l with
  | [] => [n]
  | m :: r => if (createdAt m <? createdAt n)%Z then n :: l else m :: insert_newest n r
  end.

(** [.sort({ createdAt: -1 })]: newest first, documents with equal keys in
    stored order. *)
Definition sort_newest (l : list Notification) : list Notification :=
  fold_left (fun acc n => insert_newest n acc) l [].

(** A cursor's [limit(n)]: 0 is no limit, a negative [n] means [|n|]. *)
Definition cursor_limit {A} (n : Z) (l : list A) : list A :=
  if (n =? 0)%Z then l else firstn (Z.to_nat (Z.abs n)) l.

Record NotificationPage := mkNotificationPage {
  page_docs : list Notification;
  totalPages : option Z;         (* None: [total / 0] is not a finite number *)
  totalNotifications : nat;
  unreadCount : nat }.

(** GET / (lines 10-57) for numeric [page] and [limit]. The cursor applies
    [skip] before [limit] whatever the call order; the server rejects a
    negative skip, which the [catch] turns into a 500. *)
Definition notification_query (uid unreadOnly : string) (n : Notification) : bool :=
  String.eqb (notif_user n) uid && (negb (String.eqb unreadOnly "true") || negb (read n)).

Definition list_notifications_route (uid : string) (page limit : Z) (unreadOnly : string)
  (ns : list Notification) : Z * option NotificationPage :=
  let skip := ((page - 1) * limit)%Z in
  if (skip <? 0)%Z then (500%Z, None) else
  let sel := List.filter (notification_query uid unreadOnly) ns in
  let docs := cursor_limit limit (drop (Z.to_nat skip) (sort_newest sel)) in
  let pages := if (limit =? 0)%Z then None
               else Some (Qceiling (inject_Z (Z.of_nat (length sel)) / inject_Z limit)) in
  (200%Z, Some (mkNotificationPage docs pages (length sel) (unread_count uid ns))).

(** The documents of page [p] (numbered from 1), as a client reads them. *)
Definition page_docs_at (uid : string) (limit : Z) (unreadOnly : string)
  (ns : list Notification) (p : nat) : list Notification :=
  match snd (list_notifications_route uid (Z.of_nat p) limit unreadOnly ns) with
  | Some pg => page_docs pg
  | None => []
  end.

(** POST /api/admin/test-notifications and /api/admin/test-payment-notification
    (src/routes/admin.js, lines 276-331): [User.find({ isActive: true }).limit(lim)],
    one document of type [ty] per user, then [insertMany]; [nid] gives the
    generated [_id]s. *)
Definition test_notifications_route (lim : nat) (ty ttl msg : string) (nid : User -> string)
  (now : Z) (users : list User) (ns : list Notification) : Z * list Notification :=
  let active := firstn lim (List.filter isActive users) in
  let docs := map (fun u => mkNotification (nid u) (user_id u) ty ttl msg false now) active in
  match insertMany docs ns with
  | inr ns' => (200%Z, ns')
  | inl _ => (500%Z, ns)
  end.

Definition test_notifications (nid : User -> string) (now : Z) :=
  test_notifications_route 5 "test" "Notification de test"
    "Ceci est une notification de test pour vérifier le système." nid now.

Definition test_payment_notification (nid : User -> string) (now : Z) :=
  test_notifications_route 3 "payment" "Paiement reçu"
    "Votre paiement de 150 MAD a été reçu avec succès." nid now.

(* ------------------------------------------------------------------ *)
(** ** PUT /api/orders/:id/status (src/unnamed/part_001, lines 447-499) *)

(** [`${x}`] of an optional string path. *)
Definition js_string_of_opt (s : option string) : string :=
  match s with Some v => v | None => "undefined" end.

(** The [switch (status)] on the notification texts. *)
Definition status_notification_text (s num : string) : string * string :=
  if String.eqb s "En préparation" then
    ("Commande en préparation",
     "Votre commande " ++ num ++ " est maintenant en cours de préparation.")
  else if String.eqb s "Expédiée" then
    ("Commande expédiée !",
     "Votre commande " ++ num ++ " a été expédiée et arrive bientôt !")
  else if String.eqb s "Livrée" then
    ("Commande livrée !",
     "Votre commande " ++ num ++ " a été livrée. Merci pour votre confiance !")
  else
    ("Statut de commande mis à jour",
     "Le statut de votre commande " ++ num ++ " a été mis à jour : " ++ s).

(** The owner's handler: no admin check, [order.status = status], [save()],
    then [Notification.createNotification] of type 'order'; [nid] and [now]
    are the notification's [_id] and timestamp. [s] is [req.body.status], a
    string or absent ([None], [undefined]). The [switch] compares [s] with
    three strings, none of them "undefined", so switching on
    [js_string_of_opt s] takes the same branch, and the default message
    prints [s] the same way. *)
Definition owner_update_status_route (oid uid : string) (s : option string) (nid : string)
  (now : Z) (st : Store) (ns : list Notification) : Z * Store * list Notification :=
  match find_user_order oid uid (orders st) with
  | None => (404%Z, st, ns)
  | Some o =>
      match order_save false (assign_status o s) st with
      | inl _ => (500%Z, st, ns)
      | inr (o', st') =>
          let '(ttl, msg) :=
            status_notification_text (js_string_of_opt s) (js_string_of_opt (orderNumber o')) in
          match createNotification nid now uid "order" ttl msg ns with
          | inr ns' => (200%Z, st', ns')
          | inl _ => (500%Z, st', ns)
          end
      end
  end.

(** The same request sent [k] times in a row. *)
Fixpoint repeat_owner_status (k : nat) (oid uid : string) (s : option string) (nid : string)
  (now : Z) (st : Store)
  (ns : list Notification) : Store * list Notification :=
  match k with
  | 0 => (st, ns)
  | S k' =>
      let '(_, st', ns') := owner_update_status_route oid uid s nid now st ns in
      repeat_owner_status k' oid uid s nid now st' ns'
  end.

(* ------------------------------------------------------------------ *)
(** ** The [protect] and [optionalAuth] middlewares (src/unnamed/part_000) *)

(** [str.split(' ')] for a one-character separator. *)
Fixpoint split_on (c : ascii) (s : string) : list string :=
  match s with
  | EmptyString => [EmptyString]
  | String d r =>
      let parts := split_on c r in
      if Ascii.eqb c d then EmptyString :: parts
      else match parts with
           | p :: ps => String d p :: ps
           | [] => [String d EmptyString]
           end
  end.

(** [if (authorization && authorization.startsWith('Bearer'))
    token = authorization.split(' ')[1]] *)
Definition bearer_token (authorization : option string) : option string :=
  match authorization with
  | Some h => if String.prefix "Bearer" h then nth_error (split_on " "%char h) 1 else None
  | None => None
  end.

(** [protect] (lines 4-58). [verify] is [jwt.verify] with the server's
    secret: the [id] of the payload, or [None] when it throws
    JsonWebTokenError or TokenExpiredError. A malformed [id] makes [findById]
    throw a CastError, which the [catch] answers with 500. The result is the
    refusal's status or the user put on [req.user]. *)
Definition protect (verify : string -> option string) (authorization : option string)
  (users : gmap string User) : Z + User :=
  match bearer_token authorization with
  | None | Some EmptyString => inl 401%Z
  | Some t =>
      match verify t with
      | None => inl 401%Z
      | Some id =>
          match cast_object_id id with
          | None => inl 500%Z
          | Some k =>
              match users !! k with
              | None => inl 401%Z
              | Some u => if isActive u then inr u else inl 401%Z
              end
          end
      end
  end.

(** [optionalAuth] (lines 61-82): never refuses; [req.user] is set or not. *)
Definition optionalAuth (verify : string -> option string) (authorization : option string)
  (users : gmap string User) : option User :=
  match bearer_token authorization with
  | Some (String _ _ as t) =>
      match verify t with
      | Some id =>
          match cast_object_id id with
          | Some k =>
              match users !! k with
              | Some u => if isActive u then Some u else None
              | None => None
              end
          | None => None
          end
      | None => None
      end
  | _ => None
  end.

(* ------------------------------------------------------------------ *)
(** ** POST /api/auth/create-admin (src/unnamed/part_002, lines 140-189) *)

(** The [trim] and [lowercase] setters of [email]; [toLowerCase] is
    [String.prototype.toLowerCase], which maps no white space to anything else
    and nothing else to white space, so the order of the two does not
    matter. *)
Definition email_setters (toLowerCase : string -> string) (mail : string) : string :=
  toLowerCase (js_trim mail).

(** The document [User.create({ name, email, password, role: 'admin' })]
    validates: the setters applied, the password still in clear. *)
Definition admin_doc (toLowerCase : string -> string) (id name mail pw : string) : User :=
  set_role (new_user id (js_trim name) (email_setters toLowerCase mail) pw) "admin".

(** The handler after [protect], for a body whose [name], [email] and
    [password] are strings. [env_secret] is [process.env.ADMIN_SECRET],
    [adminSecret] the body's field ([None] for [undefined]); the
    [findOne({ email })] filter goes through the same setters; [hash] is the
    bcrypt [pre('save')] hook. *)
Definition create_admin_route (toLowerCase : string -> string)
  (env_secret adminSecret : option string)
  (name mail pw new_id : string) (hash : string -> string) (users : gmap string User)
  : Z * gmap string User :=
  if negb (bool_decide (adminSecret = env_secret)) then (403%Z, users) else
  let e := email_setters toLowerCase mail in
  if existsb (fun kv => String.eqb (email kv.2) e) (map_to_list users) then (400%Z, users) else
  let doc := admin_doc toLowerCase new_id name mail pw in
  if validate_user doc then (201%Z, <[new_id := set_password doc (Some (hash pw))]> users)
  else (500%Z, users).

(* ------------------------------------------------------------------ *)
(** ** Product virtuals (src/models/Product.js, lines 151-172) *)

(** [salePrice]: [isOnSale] and the optional [salePercentage] are paths the
    [Product] record does not carry; a percentage of 0 is falsy. *)
Definition salePrice (p : Product) (isOnSale : bool) (salePercentage : option Q) : Q :=
  match salePercentage with
  | Some pct =>
      if isOnSale && negb (Qeq_bool pct 0) then (price p - price p * pct / 100)%Q else price p
  | None => price p
  end.

(** [inStock] and [lowStock] *)
Definition inStock (p : Product) : bool := negb (Qle_bool (stock p) 0).
Definition lowStock (p : Product) : bool := negb (Qle_bool (stock p) 0) && Qle_bool (stock p) 5.

(* ------------------------------------------------------------------ *)
(** ** GET /api/admin/analytics, product part (src/routes/admin.js, lines 474-576) *)

Fixpoint insert_by_stock (p : Product) (l : list Product) : list Product :=
  match l with
  | [] => [p]
  | q :: r => if Qle_bool (stock p) (stock q) then q :: insert_by_stock p r else p :: l
  end.

(** [products.sort((a, b) => b.stock - a.stock)]: a stable sort, largest
    stock first. *)
Definition sort_by_stock (ps : list Product) : list Product :=
  fold_left (fun acc p => insert_by_stock p acc) ps [].

Definition sumQ (f : Product -> Q) (ps : list Product) : Q :=
  fold_left (fun s p => s + f p)%Q ps 0%Q.

(** The order [products.sort] produces: [x] before [y] when [y] has no more
    stock than [x]. *)
Definition stock_ge (x y : Product) : Prop := (stock y <= stock x)%Q.

Record ProductAnalytics := mkProductAnalytics {
  totalProducts : nat;
  lowStockProducts : nat;
  outOfStockProducts : nat;
  totalStockValue : Q;
  averageStock : Q;
  categoryAnalytics : list nat;   (* in the order of [product_category_enum] *)
  topProductsByStock : list Product;
  lowStockAlerts : list Product }.

(** The product fields of [analytics] ([activeProducts] reads a path the
    record does not carry). [products.sort] sorts the array in place while
    [topProductsByStock] is built, so [lowStockAlerts], evaluated after it,
    filters the sorted array. *)
Definition product_analytics (ps : list Product) : ProductAnalytics :=
  let sorted := sort_by_stock ps in
  mkProductAnalytics
    (length ps)
    (length (List.filter (fun p => Qle_bool (stock p) 5) ps))
    (length (List.filter (fun p => Qeq_bool (stock p) 0) ps))
    (sumQ (fun p => price p * stock p)%Q ps)
    (match ps with [] => 0%Q | _ => (sumQ stock ps / inject_Z (Z.of_nat (length ps)))%Q end)
    (map (fun c => length (List.filter (fun p => String.eqb (category p) c) ps))
       ["cosmetics"; "cleaning"; "kitchen"; "bathroom"; "accessories"; "gifts"])
    (firstn 10 sorted)
    (List.filter (fun p => Qle_bool (stock p) 5) sorted).

(* ------------------------------------------------------------------ *)
(** ** GET /api/user/stats, next tier (src/routes/admin.js, lines 791-857) *)

(** The tier names of part_005. *)
Definition tier_lower (t : Tier) : string :=
  match t with Bronze => "bronze" | Silver => "silver" | Gold => "gold" | Platinum => "platinum" end.

(** [nextTier] and [Math.min(progressToNextTier, 100)] for the stored [tier]
    string and [loyaltyPoints]. *)
Definition next_tier_progress (t : string) (points : Q) : option string * Q :=
  let '(nt, prog) :=
    if String.eqb t "bronze" then (Some "silver", points / 100 * 100)%Q
    else if String.eqb t "silver" then (Some "gold", (points - 100) / 400 * 100)%Q
    else if String.eqb t "gold" then (Some "platinum", (points - 500) / 500 * 100)%Q
    else (None, 0%Q) in
  (nt, if Qle_bool prog 100 then prog else 100%Q).

(* ------------------------------------------------------------------ *)
(** ** Concrete data used by the witnesses and counterexamples *)

Definition soap : Product :=
  mkProduct "Savon" "Savon a l'orange" (10 # 1) "cosmetics" "soap.png" (5 # 1) [] 0 0 None.

Definition shop0 : Store := mkStore [] {[ "p1" := soap; "p2" := soap ]}.

Definition req_items_25 : list ReqItem :=
  [mkReqItem "p1" (Some "p1") "Savon" (10 # 1) 2; mkReqItem "p2" (Some "p2") "Savon" (5 # 1) 1].

Definition order_o1 (s : string) : Order :=
  mkOrder "o1" (Some "CMD-0001") "u1" [mkItem (Some "p1") "Savon" 2 (10 # 1)] (Some (20 # 1))
    (Some s) (Some "card").

Definition shop_with (s : string) : Store := mkStore [order_o1 s] {[ "p1" := soap ]}.

Definition alice : User := new_user "u1" "Alice" "alice@example.com" "$2a$12$hash".

Definition five_wrong : list (Z * bool) :=
  [(1000, false); (2000, false); (3000, false); (4000, false); (5000, false)]%Z.

Definition soap_rated_empty : Product :=
  mkProduct "Savon" "Savon a l'orange" (10 # 1) "cosmetics" "soap.png" (5 # 1) [] 4 3 None.

Definition soap_two_reviews : Product :=
  mkProduct "Savon" "Savon a l'orange" (10 # 1) "cosmetics" "soap.png" (5 # 1)
    [mkReview (Some "u1") 5; mkReview (Some "u2") 4] 0 0 None.

Definition soap_half_stock : Product := set_stock soap (5 # 2).

Definition draft (oid : string) : Order :=
  mkOrder oid (Some "TMP") "u1" [mkItem (Some "p1") "Savon" 1 (10 # 1)] (Some (10 # 1))
    (Some "pending") (Some "card").

Definition me_id : string := "64b7f0c2a1e4d3b2c1a09f01".
Definition bob_id : string := "64b7f0c2a1e4d3b2c1a09f02".

Definition shop_products : gmap string Product := products shop0.

Definition admins : gmap string User :=
  {[ me_id := set_role (new_user me_id "Me" "me@example.com" "$2a$12$hash") "admin";
     bob_id := set_role (new_user bob_id "Bob" "bob@example.com" "$2a$12$hash") "admin" ]}.

Definition nid_a : string := "64b7f0c2a1e4d3b2c1a0a001".
Definition nid_b : string := "64b7f0c2a1e4d3b2c1a0a002".
Definition nid_c : string := "64b7f0c2a1e4d3b2c1a0a003".

Definition notif_a : Notification :=
  mkNotification nid_a me_id "order" "Commande confirmée"
    "Votre commande CMD-0001 a été confirmée." false 3.
Definition notif_b : Notification :=
  mkNotification nid_b bob_id "promotion" "Offre de la semaine"
    "Savon a l'orange : -20 %." false 2.
Definition notif_c : Notification :=
  mkNotification nid_c me_id "system" "Bienvenue" "Bienvenue chez GreenZest." true 1.

Definition inbox : list Notification := [notif_a; notif_b; notif_c].

Definition carol_id : string := "64b7f0c2a1e4d3b2c1a09f03".

Definition stock_mix : list Product := [soap; set_stock soap 0; set_stock soap 12].

(* ================================================================== *)
(** * Lemmas *)

Lemma in_enum_eq s l : in_enum s l = true <-> s ∈ l.
Proof.
  unfold in_enum. rewrite existsb_exists, list_elem_of_In.
  split; [intros (x & Hin & Hx); apply String.eqb_eq in Hx; by subst
         | intros Hin; exists s; split; [done | apply String.eqb_refl]].
Qed.

(** The route's payment methods and the schema's are disjoint. *)
Lemma route_payment_not_in_schema p :
  in_enum p ["Stripe"; "PayPal"; "Livraison"] = true ->
  in_enum p payment_method_enum = false.
Proof.
  rewrite in_enum_eq. intros Hp.
  apply list_elem_of_In in Hp. simpl in Hp.
  destruct Hp as [<- | [<- | [<- | []]]]; reflexivity.
Qed.

(** The total hook computes the sum of price × quantity. *)
Lemma items_total_fold_right (its : list OrderItem) :
  (items_total its ==
   fold_right (fun it s => item_price it * inject_Z (item_quantity it) + s) 0 its)%Q.
Proof.
  unfold items_total.
  assert (Hgen : forall acc,
    (fold_left (fun sum it => sum + item_price it * inject_Z (item_quantity it)) its acc ==
     acc + fold_right (fun it s => item_price it * inject_Z (item_quantity it) + s) 0 its)%Q).
  { induction its as [|it its IH]; intros acc; simpl.
    - ring.
    - rewrite IH. ring. }
  rewrite Hgen. ring.
Qed.

(* ================================================================== *)
(** * Claims *)

(** C1 (code_bug). The spec says an order created with items
    [{price:10, qty:2}, {price:5, qty:1}] is stored with total 25, the total
    being recomputed from the items. The total hook does compute that sum
    ([items_total_fold_right]), but no request to POST /api/orders is ever
    answered 201: the route accepts only the payment methods Stripe, PayPal
    and Livraison, the Order schema only card, paypal and cash_on_delivery,
    so every request that passes the route's checks fails schema validation
    (500), and nothing is stored. *)
Theorem create_order_never_created (oid uid : string) (r : OrderReq) (st : Store) :
  create_order_route oid uid r st = (400%Z, None, st)
  \/ create_order_route oid uid r st = (500%Z, None, st).
Proof.
  unfold create_order_route.
  destruct (validate_order_req r) eqn:Hv; [right | by left].
  assert (Hpm : in_enum (req_paymentMethod r) payment_method_enum = false).
  { apply route_payment_not_in_schema.
    unfold validate_order_req in Hv.
    apply andb_prop in Hv as [_ Hv]. exact Hv. }
  assert (Hval : validate_order (new_order oid uid r) = false).
  { unfold validate_order.
    change (paymentMethod (new_order oid uid r)) with (Some (req_paymentMethod r)).
    cbv iota. rewrite Hpm. apply andb_false_r. }
  unfold order_save. rewrite Hval. reflexivity.
Qed.

(** The failing input of C1: the spec's own example, with the payment method
    the route accepts (500) and with one the schema accepts (400). *)
Lemma create_order_example_fails :
  create_order_route "o1" "u1" (mkOrderReq req_items_25 (Some (25 # 1)) "Stripe") shop0
    = (500%Z, None, shop0)
  /\ create_order_route "o1" "u1" (mkOrderReq req_items_25 (Some (25 # 1)) "card") shop0
    = (400%Z, None, shop0).
Proof. split; vm_compute; reflexivity. Qed.

(** Setting the French status 'Annulée' makes any order fail the schema's
    [status] enum. *)
Lemma order_save_annulee_fails (isNew : bool) (o : Order) (st : Store) :
  order_save isNew (set_status o "Annulée") st = inl ValidationError.
Proof.
  unfold order_save.
  assert (Hval : validate_order (set_status o "Annulée") = false).
  { unfold validate_order.
    change (status (set_status o "Annulée")) with (Some "Annulée").
    rewrite (andb_false_r (required_string _ && _ && _)). reflexivity. }
  rewrite Hval. reflexivity.
Qed.

Lemma cancel_order_route_store (oid uid : string) (st : Store) :
  snd (cancel_order_route oid uid st) = st.
Proof.
  unfold cancel_order_route.
  destruct (find_user_order oid uid (orders st)) as [o|]; [|done].
  destruct (_ || _); [done|].
  rewrite order_save_annulee_fails. done.
Qed.

(** An owner cancelling an order whose status is any value of the schema's
    enum gets a 500: the 400 guard tests French statuses that the enum never
    admits, and the save of 'Annulée' fails validation. *)
Lemma cancel_enum_status_500 (oid uid : string) (st : Store) (o : Order) :
  find_user_order oid uid (orders st) = Some o ->
  status_valid (status o) = true ->
  cancel_order_route oid uid st = (500%Z, st).
Proof.
  intros Hfind Hen. unfold cancel_order_route. rewrite Hfind.
  assert (Hg : (js_eq_opt (status o) "Annulée" || js_eq_opt (status o) "Livrée") = false).
  { destruct (status o) as [v|]; [|reflexivity].
    apply in_enum_eq, list_elem_of_In in Hen. simpl in Hen.
    destruct Hen as [H|[H|[H|[H|[H|[]]]]]]; rewrite <- H; reflexivity. }
  rewrite Hg, order_save_annulee_fails. reflexivity.
Qed.

(** C2 (code_bug). The spec says the owner's cancellation of a 'cancelled' or
    'delivered' order is rejected with 400 and the status is left unchanged.
    At those inputs the handler answers 500: its guard compares the status
    with 'Annulée' and 'Livrée', which the schema's enum never stores, and
    the save of 'Annulée' then fails validation. The store is unchanged. *)
Theorem cancel_terminal_order_gives_500 :
  cancel_order_route "o1" "u1" (shop_with "cancelled") = (500%Z, shop_with "cancelled")
  /\ cancel_order_route "o1" "u1" (shop_with "delivered") = (500%Z, shop_with "delivered").
Proof.
  split; [apply (cancel_enum_status_500 _ _ _ (order_o1 "cancelled"))
         | apply (cancel_enum_status_500 _ _ _ (order_o1 "delivered"))]; reflexivity.
Qed.

(** C3 (code_bug). The spec says cancelling an order that was not cancelled
    adds each item's quantity back to the product's stock. No cancellation
    path changes any stock: the owner's route never saves (its save fails
    validation), and the admin route's [findByIdAndUpdate] returns the
    updated document ([new: true]), so the hook's test
    [doc.status !== 'cancelled'] is always false; its other test
    [this._update.status === 'cancelled'] fails too, the query having moved
    [status] under [$set]. *)
Theorem cancellation_never_restores_stock (oid uid : string) (st : Store) :
  snd (cancel_order_route oid uid st) = st
  /\ products (snd (admin_update_order_status oid "cancelled" st)) = products st.
Proof.
  split; [apply cancel_order_route_store|].
  unfold admin_update_order_status, order_find_by_id_and_update_status.
  destruct (List.find _ (orders st)) as [o|]; reflexivity.
Qed.

(** The failing input of C3: a pending order for 2 units of p1 (stock 5),
    cancelled by an admin: stock stays 5 instead of 7. *)
Example admin_cancel_keeps_stock :
  (products (snd (admin_update_order_status "o1" "cancelled" (shop_with "pending")))) !! "p1"
    = Some soap
  /\ stock soap = (5 # 1)%Q.
Proof. split; reflexivity. Qed.

(* ------------------------------------------------------------------ *)
(** ** Loyalty tier *)

Lemma tier_for_highest (p : Z) : (0 <= p)%Z -> highest_tier_within p (tier_for p).
Proof.
  intros Hp. unfold highest_tier_within, tier_for.
  repeat match goal with |- context [Z.leb ?a ?b] => destruct (Z.leb_spec a b) end;
  (split; [simpl; lia | intros [] Ht; simpl in *; lia]).
Qed.

Lemma highest_tier_is_tier_for (p : Z) (t : Tier) :
  highest_tier_within p t -> t = tier_for p.
Proof.
  intros [H1 H2].
  pose proof (H2 Silver) as HS; pose proof (H2 Gold) as HG; pose proof (H2 Platinum) as HP.
  unfold tier_for; destruct t; simpl in *;
  repeat match goal with |- context [Z.leb ?a ?b] => destruct (Z.leb_spec a b) end;
  try reflexivity; exfalso;
  try specialize (HP ltac:(lia)); try specialize (HG ltac:(lia));
  try specialize (HS ltac:(lia)); lia.
Qed.

Lemma tier_correct_iff (u : User) :
  tier_correct u <-> (0 <= loyaltyPoints u)%Z /\ tier u = tier_for (loyaltyPoints u).
Proof.
  unfold tier_correct. split.
  - intros H. split; [|by apply highest_tier_is_tier_for].
    destruct H as [H _]. destruct (tier u); simpl in H; lia.
  - intros [Hp ->]. by apply tier_for_highest.
Qed.

Lemma retier_inline_points (v : User) : loyaltyPoints (retier_inline v) = loyaltyPoints v.
Proof. unfold retier_inline. by repeat case_match. Qed.

Lemma retier_inline_tier (v : User) :
  tier v = Bronze \/ (100 <= loyaltyPoints v)%Z ->
  tier (retier_inline v) = tier_for (loyaltyPoints v).
Proof.
  intros Hv. unfold retier_inline, tier_for.
  repeat match goal with |- context [Z.leb ?a ?b] => destruct (Z.leb_spec a b) end;
  simpl; try reflexivity.
  destruct Hv; [done | lia].
Qed.

(** The inline tier update is enough when points never decrease: below 100
    points a correct tier is already Bronze. *)
Lemma retier_inline_correct (u : User) (p : Z) :
  tier_correct u -> (0 <= p)%Z ->
  tier_correct (retier_inline (set_loyaltyPoints u (loyaltyPoints u + p))).
Proof.
  rewrite !tier_correct_iff. intros [Hu Ht] Hp.
  rewrite retier_inline_points. simpl. split; [lia|].
  apply retier_inline_tier. simpl.
  destruct (Z.leb_spec 100 (loyaltyPoints u + p)); [by right|left].
  rewrite Ht. unfold tier_for.
  repeat match goal with |- context [Z.leb ?a ?b] => destruct (Z.leb_spec a b) end;
  try reflexivity; lia.
Qed.

Lemma run_loyalty_op_correct (u : User) (op : LoyaltyOp) :
  tier_correct u -> op_nonneg op -> tier_correct (run_loyalty_op u op).
Proof.
  intros Hu Hop. destruct op as [p|p|c w o]; simpl in *.
  - by apply retier_inline_correct.
  - unfold addLoyaltyPoints, updateTier. apply tier_correct_iff in Hu.
    apply tier_correct_iff. simpl.
    destruct (decide _) as [Heq|_]; simpl; (split; [lia | try done]).
  - unfold updateImpact.
    assert (Hc : (0 <= Qfloor c)%Z).
    { destruct Hop as [Hc _].
      change 0%Z with (Qfloor 0). by apply Qfloor_resp_le. }
    assert (Hu' : tier_correct (set_impact u (totalCO2Saved u + c)
                    (totalWaterSaved u + w) (totalOrangesRecycled u + o))) by exact Hu.
    exact (retier_inline_correct _ _ Hu' Hc).
Qed.

(** C4. Every new user has the correct tier, and each of the loyalty-point
    mutations (updateLoyaltyPoints, addLoyaltyPoints, updateImpact) with
    non-negative arguments keeps the tier equal to the highest tier whose
    threshold (0, 100, 500, 1000) does not exceed the points. *)
Theorem tier_invariant :
  (forall id name mail hashed, tier_correct (new_user id name mail hashed))
  /\ forall (u : User) (ops : list LoyaltyOp),
       tier_correct u -> Forall op_nonneg ops -> tier_correct (run_loyalty_ops ops u).
Proof.
  split.
  - intros. apply tier_correct_iff. simpl. split; [lia | reflexivity].
  - intros u ops. unfold run_loyalty_ops. revert u.
    induction ops as [|op ops IH]; intros u Hu Hops; simpl; [done|].
    inversion Hops; subst. apply IH; [by apply run_loyalty_op_correct | done].
Qed.

Lemma tier_invariant_witness :
  tier_correct (run_loyalty_ops
    [OpUpdateLoyaltyPoints 150; OpAddLoyaltyPoints 400; OpUpdateImpact (5 # 2) 0 3]
    (new_user "u1" "Amina" "a@b.com" "hash")).
Proof.
  apply (proj2 tier_invariant).
  - apply (proj1 tier_invariant).
  - repeat constructor; simpl; unfold Qle; simpl; lia.
Defined.

(* ------------------------------------------------------------------ *)
(** ** Lockout *)

Lemma login_auth_invalid (t : Z) (p : bool) (u v : User) :
  login_auth t p u = (InvalidCredentials, v) ->
  failedLoginAttempts v = S (failedLoginAttempts u)
  /\ (5 <= S (failedLoginAttempts u) -> lockUntil v = Some (t + 15 * 60 * 1000)%Z).
Proof.
  unfold login_auth.
  destruct (locked_at u t); [discriminate|].
  destruct (isActive u); cbn [negb]; [|discriminate].
  destruct p; cbn [negb]; [discriminate|].
  intros Hv; injection Hv as <-.
  destruct (failedLoginAttempts u) as [|[|[|[|n]]]]; cbn; split; (done || lia).
Qed.

Lemma login_legacy_invalid (t : Z) (p : bool) (u v : User) :
  lockUntil u = None ->
  login_legacy t p u = (InvalidCredentials, v) ->
  loginAttempts v = S (loginAttempts u)
  /\ lockUntil v = if Nat.leb 5 (S (loginAttempts u))
                   then Some (t + 2 * 60 * 60 * 1000)%Z else None.
Proof.
  intros Hl. unfold login_legacy, incLoginAttempts, locked_at. rewrite Hl.
  destruct p; cbn [negb]; [discriminate|].
  intros Hv; injection Hv as <-. cbn [andb negb].
  destruct (loginAttempts u) as [|[|[|[|n]]]]; cbn; rewrite ?Hl; done.
Qed.

(** While the stored lock is in the future, every attempt is refused with
    423 and changes nothing. *)
Lemma locked_run (login : Z -> bool -> User -> LoginResult * User) (u : User) (l : Z)
  (rest : list (Z * bool)) :
  (forall t p, locked_at u t = true -> login t p u = (AccountLocked, u)) ->
  lockUntil u = Some l ->
  Forall (fun a => (fst a < l)%Z) rest ->
  run_logins login rest u = (repeat AccountLocked (length rest), u).
Proof.
  intros Hlogin Hl Hall. induction Hall as [|[t p] rest Ht _ IH]; [done|].
  cbn [run_logins]. rewrite Hlogin.
  - rewrite IH. reflexivity.
  - unfold locked_at. rewrite Hl. apply Z.ltb_lt. exact Ht.
Qed.

Lemma login_auth_locked t p u : locked_at u t = true -> login_auth t p u = (AccountLocked, u).
Proof. unfold login_auth. by intros ->. Qed.

Lemma login_legacy_locked t p u : locked_at u t = true -> login_legacy t p u = (AccountLocked, u).
Proof. unfold login_legacy. by intros ->. Qed.

Ltac peel_login E :=
  match goal with
  | H : context [?login ?t ?p ?u] |- _ =>
      match type of (login t p u) with
      | (LoginResult * User)%type =>
          let r := fresh "r" in let v := fresh "v" in
          destruct (login t p u) as [r v] eqn:E; cbn iota beta in H
      end
  end.

Lemma login_legacy_first_failure (t : Z) (p : bool) (u v : User) :
  (loginAttempts u = 0 /\ lockUntil u = None)
  \/ (exists l, lockUntil u = Some l /\ (l < t)%Z) ->
  login_legacy t p u = (InvalidCredentials, v) ->
  loginAttempts v = 1 /\ lockUntil v = None.
Proof.
  intros [[H0 Hn] | [l [Hl Hlt]]] E.
  - apply login_legacy_invalid in E as [A L]; [|exact Hn].
    rewrite H0 in A, L. split; [exact A | exact L].
  - revert E. unfold login_legacy, incLoginAttempts, locked_at. rewrite Hl.
    assert (Hb : (t <? l)%Z = false) by (apply Z.ltb_ge; lia). rewrite Hb.
    assert (Hb' : (l <? t)%Z = true) by (apply Z.ltb_lt; lia). rewrite Hb'.
    destruct p; cbn [negb]; [discriminate|].
    intros E; injection E as <-. split; reflexivity.
Qed.

(** C7. After five consecutive wrong passwords (five attempts answered
    InvalidCredentials), the account stores a lock expiring 15 minutes
    (routes/auth.js) after the fifth failure, and every later attempt made
    before that instant, with the correct password or not, is refused with
    AccountLocked (423). In the variant part_002 + User.js the failures are
    counted from a cleared counter (a new account, or after a successful
    login, which unsets both fields) or from an expired lock (the counter
    restarts at 1), and the lock lasts 2 hours. *)
Theorem lockout_after_five_failures :
  (forall (u u5 : User) (t1 t2 t3 t4 t5 : Z) (p1 p2 p3 p4 p5 : bool),
     run_logins login_auth [(t1, p1); (t2, p2); (t3, p3); (t4, p4); (t5, p5)] u
       = (repeat InvalidCredentials 5, u5) ->
     lockUntil u5 = Some (t5 + 15 * 60 * 1000)%Z
     /\ forall rest, Forall (fun a => (fst a < t5 + 15 * 60 * 1000)%Z) rest ->
          run_logins login_auth rest u5 = (repeat AccountLocked (length rest), u5))
  /\ (forall (u u5 : User) (t1 t2 t3 t4 t5 : Z) (p1 p2 p3 p4 p5 : bool),
     (loginAttempts u = 0 /\ lockUntil u = None)
     \/ (exists l, lockUntil u = Some l /\ (l < t1)%Z) ->
     run_logins login_legacy [(t1, p1); (t2, p2); (t3, p3); (t4, p4); (t5, p5)] u
       = (repeat InvalidCredentials 5, u5) ->
     lockUntil u5 = Some (t5 + 2 * 60 * 60 * 1000)%Z
     /\ forall rest, Forall (fun a => (fst a < t5 + 2 * 60 * 60 * 1000)%Z) rest ->
          run_logins login_legacy rest u5 = (repeat AccountLocked (length rest), u5)).
Proof.
  split.
  - intros u u5 t1 t2 t3 t4 t5 p1 p2 p3 p4 p5 H. cbn [run_logins] in H.
    peel_login E1. peel_login E2. peel_login E3. peel_login E4. peel_login E5.
    injection H as -> -> -> -> -> ->.
    apply login_auth_invalid in E1 as [F1 _], E2 as [F2 _], E3 as [F3 _],
      E4 as [F4 _], E5 as [F5 L5].
    assert (Hl : lockUntil u5 = Some (t5 + 15 * 60 * 1000)%Z) by (apply L5; lia).
    split; [exact Hl|].
    intros rest Hrest. apply (locked_run _ _ _ _ (fun t p => login_auth_locked t p u5) Hl Hrest).
  - intros u u5 t1 t2 t3 t4 t5 p1 p2 p3 p4 p5 Hstart H. cbn [run_logins] in H.
    peel_login E1. peel_login E2. peel_login E3. peel_login E4. peel_login E5.
    injection H as -> -> -> -> -> ->.
    apply login_legacy_first_failure in E1 as [A1 L1]; [|exact Hstart].
    apply login_legacy_invalid in E2 as [A2 L2]; [|exact L1].
    rewrite A1 in A2, L2. simpl in L2.
    apply login_legacy_invalid in E3 as [A3 L3]; [|exact L2].
    rewrite A2 in A3, L3. simpl in L3.
    apply login_legacy_invalid in E4 as [A4 L4]; [|exact L3].
    rewrite A3 in A4, L4. simpl in L4.
    apply login_legacy_invalid in E5 as [A5 L5]; [|exact L4].
    rewrite A4 in A5, L5. simpl in L5.
    split; [exact L5|].
    intros rest Hrest. apply (locked_run _ _ _ _ (fun t p => login_legacy_locked t p u5) L5 Hrest).
Qed.

Lemma lockout_after_five_failures_witness :
  lockUntil (snd (run_logins login_auth five_wrong alice)) = Some (5000 + 15 * 60 * 1000)%Z
  /\ lockUntil (snd (run_logins login_legacy five_wrong alice))
     = Some (5000 + 2 * 60 * 60 * 1000)%Z.
Proof.
  split.
  - exact (proj1 (proj1 lockout_after_five_failures alice
      (snd (run_logins login_auth five_wrong alice)) 1000%Z 2000%Z 3000%Z 4000%Z 5000%Z
      false false false false false ltac:(vm_compute; reflexivity))).
  - exact (proj1 (proj2 lockout_after_five_failures alice
      (snd (run_logins login_legacy five_wrong alice)) 1000%Z 2000%Z 3000%Z 4000%Z 5000%Z
      false false false false false (or_introl (conj eq_refl eq_refl))
      ltac:(vm_compute; reflexivity))).
Defined.

(* ------------------------------------------------------------------ *)
(** ** Ratings *)

Lemma fold_left_ratings (rs : list Review) (a : Q) :
  (fold_left (fun sum r => sum + rating r) rs a == a + fold_right (fun r s => rating r + s) 0 rs)%Q.
Proof.
  revert a. induction rs as [|r rs IH]; intros a; simpl.
  - ring.
  - rewrite IH. ring.
Qed.

Lemma product_save_inv (ps : gmap string Product) (p p' : Product) :
  product_save ps p = inr p' ->
  validate_product (product_of_body p) = true
  /\ p' = pre_save_rating (pre_save_sku true (size ps) (product_of_body p)).
Proof.
  unfold product_save. destruct (validate_product (product_of_body p)); [|discriminate].
  cbn [negb]. destruct (sku_taken _ _); [discriminate|]. by intros [= <-].
Qed.

(** The setters and the [sku] hook leave the other fields alone. *)
Lemma body_sku_fields (isNew : bool) (n : nat) (p : Product) :
  reviews (pre_save_sku isNew n (product_of_body p)) = reviews p
  /\ averageRating (pre_save_sku isNew n (product_of_body p)) = averageRating p
  /\ reviewCount (pre_save_sku isNew n (product_of_body p)) = reviewCount p
  /\ stock (pre_save_sku isNew n (product_of_body p)) = stock p.
Proof. unfold pre_save_sku. by destruct (_ && _). Qed.

Lemma pre_save_rating_stock (p : Product) : stock (pre_save_rating p) = stock p.
Proof. unfold pre_save_rating. by destruct (reviews p). Qed.

(** C5 (amended). A successful save of a Product keeps its review list; when
    the list is non-empty it sets [averageRating] to the arithmetic mean of
    the ratings and [reviewCount] to the length of the list, and when the list
    is empty it leaves both fields as they were. *)
Theorem product_save_rating_fields (ps : gmap string Product) (p p' : Product) :
  product_save ps p = inr p' ->
  reviews p' = reviews p
  /\ (reviews p <> [] ->
        (averageRating p' == ratings_mean (reviews p))%Q
        /\ reviewCount p' = Z.of_nat (length (reviews p)))
  /\ (reviews p = [] ->
        averageRating p' = averageRating p /\ reviewCount p' = reviewCount p).
Proof.
  intros H. apply product_save_inv in H as [_ ->].
  destruct (body_sku_fields true (size ps) p) as (Hr & Ha & Hc & _).
  set (q := pre_save_sku true (size ps) (product_of_body p)) in *.
  unfold pre_save_rating. rewrite Hr.
  destruct (reviews p) as [|r rs] eqn:E.
  - repeat split; done.
  - cbn [set_rating reviews averageRating reviewCount]. rewrite ?Hr, ?E.
    split; [done|]. split; [|discriminate]. intros _. split; [|done].
    unfold ratings_mean. rewrite fold_left_ratings. apply Qdiv_comp; [ring | reflexivity].
Qed.

Lemma product_save_rating_fields_witness :
  exists p', product_save shop_products soap_two_reviews = inr p'
  /\ (averageRating p' == ratings_mean (reviews soap_two_reviews))%Q.
Proof.
  destruct (product_save shop_products soap_two_reviews) as [e|p'] eqn:H.
  - vm_compute in H. discriminate.
  - exists p'. split; [reflexivity|].
    apply (proj1 (proj2 (product_save_rating_fields _ _ _ H))). discriminate.
Defined.

(** C5. An admin creates a product whose body has an empty review list and
    [averageRating: 4]: the creation succeeds and the stored product keeps
    [averageRating] 4, not 0. *)
Lemma create_product_keeps_stale_rating :
  create_product_route "p3" soap_rated_empty shop_products
    = (201%Z, <[ "p3" := set_sku soap_rated_empty (Some "GZ-COS-0003") ]> shop_products)
  /\ reviews soap_rated_empty = []
  /\ averageRating soap_rated_empty = 4%Q
  /\ reviewCount soap_rated_empty = 3%Z.
Proof. split; [vm_compute; reflexivity|]. repeat split. Qed.

(* ------------------------------------------------------------------ *)
(** ** Order numbers *)

Definition nonzero_head (s : string) : Prop :=
  exists c r, s = String c r /\ c <> "0"%char.

Lemma pretty_N_go_nonzero_head (x : N) (s : string) :
  (0 < x)%N -> nonzero_head (pretty_N_go x s).
Proof.
  revert s. induction (N.lt_wf_0 x) as [x _ IH]; intros s Hx.
  rewrite pretty_N_go_step by done.
  assert (x < 10 \/ 10 <= x)%N as [Hlt|Hge] by lia.
  - rewrite N.div_small by done. rewrite pretty_N_go_0.
    rewrite N.mod_small by done.
    exists (pretty_N_char x), s. split; [done|].
    assert (x = 1 \/ x = 2 \/ x = 3 \/ x = 4 \/ x = 5 \/ x = 6
          \/ x = 7 \/ x = 8 \/ x = 9)%N as Hd by lia.
    repeat destruct Hd as [-> | Hd]; try (subst; discriminate); discriminate.
  - apply IH.
    + apply N.div_lt; lia.
    + apply N.div_str_pos. lia.
Qed.

Lemma pretty_S_nonzero_head (n : nat) : nonzero_head (pretty (S n)).
Proof.
  change (pretty (S n)) with (pretty (N.of_nat (S n))).
  unfold pretty, pretty_N.
  destruct (decide (N.of_nat (S n) = 0%N)) as [H|H]; [lia|].
  apply pretty_N_go_nonzero_head. lia.
Qed.

Lemma zeros_app_inj (a b : nat) (s t : string) :
  nonzero_head s -> nonzero_head t -> zeros a +:+ s = zeros b +:+ t -> s = t.
Proof.
  intros [c [r [-> Hc]]] [d [q [-> Hd]]].
  revert b. induction a as [|a IH]; intros [|b]; simpl.
  - done.
  - intros H. injection H as Hc0 _. by destruct Hc.
  - intros H. injection H as Hd0 _. by destruct Hd.
  - intros H. injection H as H. exact (IH b H).
Qed.

Lemma order_number_of_inj (m n : nat) : order_number_of m = order_number_of n -> m = n.
Proof.
  unfold order_number_of, padStart4. cbn [String.append]. intros H.
  injection H as H.
  apply zeros_app_inj in H; [|apply pretty_S_nonzero_head..].
  apply (inj pretty) in H. lia.
Qed.

Lemma replace_order_length (o : Order) (os : list Order) :
  length (replace_order o os) = length os.
Proof. apply length_map. Qed.

Lemma order_save_new (o o' : Order) (st st' : Store) :
  order_save true o st = inr (o', st') ->
  orderNumber o' = Some (order_number_of (length (orders st)))
  /\ length (orders st') = S (length (orders st)).
Proof.
  unfold order_save. destruct (negb (validate_order o)); [discriminate|].
  destruct (existsb _ _); [discriminate|].
  intros H; injection H as <- <-. cbn [orders].
  rewrite length_app. simpl. split; [|lia].
  unfold pre_save_total. destruct (items _); reflexivity.
Qed.

Lemma order_save_existing_length (o o' : Order) (st st' : Store) :
  order_save false o st = inr (o', st') -> length (orders st') = length (orders st).
Proof.
  unfold order_save. destruct (negb (validate_order o)); [discriminate|].
  intros H; injection H as _ <-. apply replace_order_length.
Qed.

Lemma run_order_ops_numbers (ops : list OrderOp) (st : Store) :
  forallb (fun op => negb (is_delete op)) ops = true ->
  fst (run_order_ops ops st)
  = map order_number_of (seq (length (orders st)) (length (fst (run_order_ops ops st)))).
Proof.
  revert st. induction ops as [|op ops IH]; intros st Hops; [done|].
  simpl in Hops. apply andb_prop in Hops as [Hop Hops].
  destruct op as [o|o|oid]; cbn [run_order_ops]; [| |discriminate].
  - destruct (order_save true o st) as [e|[o' st']] eqn:E; [by apply IH|].
    apply order_save_new in E as [Hn Hlen].
    destruct (run_order_ops ops st') as [ns st''] eqn:R.
    rewrite Hn. cbn [fst length map seq].
    specialize (IH st' Hops). rewrite R in IH. cbn [fst] in IH.
    rewrite IH at 1. rewrite Hlen. reflexivity.
  - destruct (order_save false o st) as [e|[o' st']] eqn:E; [by apply IH|].
    apply order_save_existing_length in E. rewrite <- E. by apply IH.
Qed.

(** C6 (amended). Along any sequence of order creations and saves of
    existing orders with no deletion, starting from an empty Order
    collection, the k-th successful creation (k = 1, 2, ...) gets the number
    [order_number_of (k - 1)], that is CMD-k with k padded to four digits; so
    the numbers given are pairwise distinct and their numeric part strictly
    increases in creation order. *)
Theorem order_numbers_without_deletion (ops : list OrderOp) (st : Store) :
  orders st = [] ->
  forallb (fun op => negb (is_delete op)) ops = true ->
  fst (run_order_ops ops st) = map order_number_of (seq 0 (length (fst (run_order_ops ops st))))
  /\ NoDup (fst (run_order_ops ops st)).
Proof.
  intros Hst Hops.
  pose proof (run_order_ops_numbers ops st Hops) as H. rewrite Hst in H. cbn [length] in H.
  split; [exact H|].
  rewrite H. apply (@NoDup_fmap_2 _ _ order_number_of order_number_of_inj), NoDup_seq.
Qed.

Lemma order_numbers_without_deletion_witness :
  fst (run_order_ops [OpCreate (draft "o1"); OpCreate (draft "o2"); OpCreate (draft "o3")] shop0)
  = ["CMD-0001"; "CMD-0002"; "CMD-0003"]
  /\ NoDup (fst (run_order_ops
       [OpCreate (draft "o1"); OpCreate (draft "o2"); OpCreate (draft "o3")] shop0)).
Proof.
  split; [vm_compute; reflexivity|].
  apply (order_numbers_without_deletion _ shop0); reflexivity.
Defined.

(** C6. Two orders are created (CMD-0001, CMD-0002), the latest is deleted,
    and a third creation is numbered CMD-0002 again: the numbers given are
    neither unique nor strictly increasing in creation order. *)
Lemma order_number_reused_after_deletion :
  fst (run_order_ops
         [OpCreate (draft "o1"); OpCreate (draft "o2"); OpDelete "o2"; OpCreate (draft "o3")] shop0)
  = ["CMD-0001"; "CMD-0002"; "CMD-0002"].
Proof. vm_compute. reflexivity. Qed.

(* ------------------------------------------------------------------ *)
(** ** Stock *)

Lemma validate_product_stock (p : Product) :
  validate_product p = true -> (0 <= stock p)%Q.
Proof.
  unfold validate_product. intros H.
  apply andb_prop in H as [H _]. apply andb_prop in H as [_ H].
  by apply Qle_bool_iff.
Qed.

Lemma validate_product_set_stock (p : Product) (q : Q) :
  validate_product p = true -> (0 <= q)%Q -> validate_product (set_stock p q) = true.
Proof.
  intros Hp Hq. unfold validate_product in *.
  cbn [product_name description price category image stock reviews set_stock].
  apply Qle_bool_iff in Hq. rewrite Hq.
  destruct (Qle_bool 0 (stock p)); [by rewrite Hp|].
  rewrite andb_false_r, andb_false_l in Hp. discriminate.
Qed.

(** C8 (amended). Creating a Product stores the stock it is given and rejects
    a negative one; for a product whose other paths are valid, any
    non-negative stock, integral or not, passes validation, so the creation
    succeeds with that stock unless its [sku] is already taken. *)
Theorem product_stock_rules :
  (forall ps p p', product_save ps p = inr p' -> stock p' = stock p /\ (0 <= stock p')%Q)
  /\ (forall ps p, (stock p < 0)%Q -> product_save ps p = inl ValidationError)
  /\ (forall ps p q, validate_product (product_of_body p) = true -> (0 <= q)%Q ->
        product_save ps (set_stock p q) = inl DuplicateKey
        \/ exists p', product_save ps (set_stock p q) = inr p' /\ stock p' = q).
Proof.
  split; [|split].
  - intros ps p p' H. apply product_save_inv in H as [Hv ->].
    rewrite pre_save_rating_stock.
    destruct (body_sku_fields true (size ps) p) as (_ & _ & _ & ->).
    split; [done|]. apply validate_product_stock in Hv. exact Hv.
  - intros ps p Hneg. unfold product_save.
    assert (Hv : validate_product (product_of_body p) = false).
    { destruct (validate_product (product_of_body p)) eqn:E; [|done].
      apply validate_product_stock in E. cbn in E.
      exfalso. apply (Qlt_not_le _ _ Hneg E). }
    by rewrite Hv.
  - intros ps p q Hp Hq.
    assert (Hv : validate_product (product_of_body (set_stock p q)) = true).
    { change (product_of_body (set_stock p q)) with (set_stock (product_of_body p) q).
      by apply validate_product_set_stock. }
    destruct (product_save ps (set_stock p q)) as [e|p'] eqn:E.
    + left. revert E. unfold product_save. rewrite Hv. cbn [negb].
      destruct (sku_taken _ _); congruence.
    + right. exists p'. split; [done|].
      apply product_save_inv in E as [_ ->].
      rewrite pre_save_rating_stock.
      destruct (body_sku_fields true (size ps) (set_stock p q)) as (_ & _ & _ & ->).
      reflexivity.
Qed.

Lemma product_stock_rules_witness :
  product_save shop_products (set_stock soap (-1 # 1)) = inl ValidationError
  /\ exists p', product_save shop_products soap_half_stock = inr p' /\ stock p' = (5 # 2)%Q.
Proof.
  split.
  - apply (proj1 (proj2 product_stock_rules)). reflexivity.
  - assert (Hv : validate_product (product_of_body soap) = true) by reflexivity.
    assert (Hq : (0 <= 5 # 2)%Q) by (unfold Qle; simpl; lia).
    destruct (proj2 (proj2 product_stock_rules) shop_products soap (5 # 2) Hv Hq)
      as [Hd|Hs].
    + vm_compute in Hd. discriminate.
    + exact Hs.
Defined.

(** C8. An admin creates a product with stock 2.5: the creation succeeds and
    the stored stock is not an integer. *)
Lemma create_product_fractional_stock :
  create_product_route "p3" soap_half_stock shop_products
    = (201%Z, <[ "p3" := set_sku soap_half_stock (Some "GZ-COS-0003") ]> shop_products)
  /\ stock soap_half_stock = (5 # 2)%Q
  /\ ~ (exists k : Z, stock soap_half_stock == inject_Z k)%Q.
Proof.
  split; [vm_compute; reflexivity|]. split; [reflexivity|].
  intros [k Hk]. cbn in Hk. unfold Qeq in Hk. cbn in Hk. lia.
Qed.

(* ------------------------------------------------------------------ *)
(** ** Responses carrying a user *)

Definition no_password (o : option jsval) : Prop :=
  match o with Some v => js_get "password" v = None | None => False end.

(** C9. In every response that the signup and login routes send with a user
    (sendUserResponse of src/routes/auth.js, the register and login routes of
    src/unnamed/part_002, the signup and login routes of the SQLite server),
    the serialised [user] object has no [password] key, whatever the user
    record holds. *)
Theorem auth_responses_omit_password (u : User) (token pw ts : string) :
  no_password (response_user (sendUserResponse token u))
  /\ no_password (response_user (legacy_register_response token u))
  /\ no_password (response_user (legacy_login_response token u))
  /\ no_password (response_user (sqlite_auth_response token u pw ts)).
Proof.
  repeat split; unfold response_user; cbn;
    destruct (lockUntil u); reflexivity.
Qed.

(* ------------------------------------------------------------------ *)
(** ** Demoting an admin *)

(** C10 (amended). For an admin caller whose id prints as [me]: the path
    parameter [me] itself gives 400; a parameter that is not a well-formed
    ObjectId gives 500; a well-formed one whose user is missing or is not an
    admin gives 404; in all three cases no user changes. A 200 happens only
    when the target exists with role 'admin', and then that user's role
    becomes 'user'; every other outcome leaves the users unchanged. *)
Theorem demote_admin_outcomes (me id : string) (users : gmap string User) :
  let '(code, users') := demote_admin_route me id users in
  (me = id -> code = 400%Z /\ users' = users)
  /\ (me <> id -> cast_object_id id = None -> code = 500%Z /\ users' = users)
  /\ (forall k, me <> id -> cast_object_id id = Some k ->
        (forall u, users !! k = Some u -> role u <> "admin") ->
        code = 404%Z /\ users' = users)
  /\ (code = 200%Z -> exists k u, cast_object_id id = Some k /\ users !! k = Some u
        /\ role u = "admin" /\ users' = <[k := set_role u "user"]> users)
  /\ (code <> 200%Z -> users' = users).
Proof.
  unfold demote_admin_route.
  destruct (String.eqb_spec me id) as [Heq|Hne].
  { split_and!; intros; try done; congruence. }
  destruct (cast_object_id id) as [k|] eqn:Hc.
  2:{ split_and!; intros; try done; congruence. }
  destruct (users !! k) as [u|] eqn:Hu.
  2:{ split_and!; intros; try done; congruence. }
  destruct (String.eqb_spec (role u) "admin") as [Ha|Ha]; cbn [negb].
  - unfold user_save. destruct (validate_user (set_role u "user")).
    + split_and!; intros; try done; try congruence.
      * match goal with
        | H1 : Some _ = Some _, H2 : forall u, _ |- _ =>
            injection H1 as <-; by destruct (H2 u Hu)
        end.
      * by exists k, u.
    + split_and!; intros; try done; try congruence.
      match goal with
      | H1 : Some _ = Some _, H2 : forall u, _ |- _ =>
          injection H1 as <-; by destruct (H2 u Hu)
      end.
  - split_and!; intros; try done; congruence.
Qed.

Lemma demote_admin_outcomes_witness :
  demote_admin_route me_id bob_id admins
    = (200%Z, <[bob_id := set_role (set_role (new_user bob_id "Bob" "bob@example.com"
                 "$2a$12$hash") "admin") "user"]> admins)
  /\ exists k u, cast_object_id bob_id = Some k /\ admins !! k = Some u /\ role u = "admin".
Proof.
  pose proof (demote_admin_outcomes me_id bob_id admins) as H.
  assert (E : demote_admin_route me_id bob_id admins
    = (200%Z, <[bob_id := set_role (set_role (new_user bob_id "Bob" "bob@example.com"
                 "$2a$12$hash") "admin") "user"]> admins)) by (vm_compute; reflexivity).
  rewrite E in H. destruct H as [_ [_ [_ [H200 _]]]].
  split; [exact E|].
  destruct (H200 eq_refl) as [k [u [Hk [Hu [Hr _]]]]].
  exists k, u. done.
Defined.

(** C10. An id that is not an ObjectId ("abc") makes [findById] throw a
    CastError, and the handler answers 500, not 404. *)
Lemma demote_malformed_id_gives_500 :
  demote_admin_route me_id "abc" admins = (500%Z, admins).
Proof. reflexivity. Qed.

(** The self-check compares strings, while [findById] reads hex digits in
    either case: an admin who writes their own id in uppercase demotes
    themselves. *)
Lemma demote_self_by_uppercase_id :
  fst (demote_admin_route me_id "64B7F0C2A1E4D3B2C1A09F01" admins) = 200%Z.
Proof. vm_compute. reflexivity. Qed.

(* ------------------------------------------------------------------ *)
(** ** Notifications *)

Lemma find_none_of_forall {A} (f : A -> bool) (l : list A) :
  Forall (fun x => f x = false) l -> List.find f l = None.
Proof. induction 1 as [|x l Hx _ IH]; simpl; [done|]. by rewrite Hx. Qed.

Lemma validate_notification_set_read n b :
  validate_notification (set_read n b) = validate_notification n.
Proof. by destruct n. Qed.

Lemma notif_id_unique (ns : list Notification) a b :
  NoDup (map notif_id ns) -> In a ns -> In b ns -> notif_id a = notif_id b -> a = b.
Proof.
  induction ns as [|x r IH]; simpl; [tauto|].
  intros Hnd Ha Hb Hab. apply NoDup_cons in Hnd as [Hx Hnd].
  destruct Ha as [<-|Ha], Hb as [<-|Hb]; try done.
  - exfalso. apply Hx. rewrite Hab. apply list_elem_of_In, in_map_iff. eauto.
  - exfalso. apply Hx. rewrite <- Hab. apply list_elem_of_In, in_map_iff. eauto.
  - by apply IH.
Qed.

Lemma unread_count_cons v x l : unread_count v (x :: l) = unread_ind v x + unread_count v l.
Proof. unfold unread_count, unread_ind. simpl. by destruct (_ && _). Qed.

Lemma map_replace_absent (k : string) (m : Notification) (l : list Notification) :
  ~ In k (map notif_id l) ->
  map (fun x => if String.eqb (notif_id x) k then m else x) l = l.
Proof.
  induction l as [|x r IH]; simpl; [done|]. intros Hk.
  destruct (String.eqb_spec (notif_id x) k); [tauto|]. f_equal. auto.
Qed.

Lemma unread_count_replace v k m (ns : list Notification) n :
  NoDup (map notif_id ns) -> In n ns -> notif_id n = k -> read m = true ->
  unread_count v (map (fun x => if String.eqb (notif_id x) k then m else x) ns)
  + unread_ind v n = unread_count v ns.
Proof.
  induction ns as [|x r IH]; simpl; [tauto|].
  intros Hnd Hn Hk Hm. apply NoDup_cons in Hnd as [Hx Hnd].
  rewrite !unread_count_cons.
  destruct (String.eqb_spec (notif_id x) k) as [Hxk|Hxk].
  - assert (n = x) as ->.
    { destruct Hn as [->|Hn]; [done|]. exfalso. apply Hx.
      apply list_elem_of_In, in_map_iff. exists n. split; [congruence|done]. }
    rewrite map_replace_absent by (rewrite <- Hxk; intros H; apply Hx, list_elem_of_In, H).

    unfold unread_ind at 1. rewrite Hm, andb_false_r. lia.
  - destruct Hn as [->|Hn]; [done|]. specialize (IH Hnd Hn Hk Hm). lia.
Qed.

(** X1: PUT /api/notifications/:id/read touches nothing when the
    notification is missing or belongs to someone else (404); on the caller's
    own notification it marks that one as read, keeps every other
    notification, and lowers the unread count of its owner by one if it was
    unread, no one else's. *)
Theorem mark_read_only_own (uid id k : string) (ns : list Notification) :
  cast_object_id id = Some k ->
  NoDup (map notif_id ns) ->
  Forall (fun n => validate_notification n = true) ns ->
  (Forall (fun n => owned_by k uid n = false) ns -> mark_read_route uid id ns = (404%Z, ns)) /\
  (forall n, In n ns -> owned_by k uid n = true ->
     exists ns', mark_read_route uid id ns = (200%Z, ns') /\
       In (set_read n true) ns' /\
       (forall x, In x ns -> notif_id x <> k -> In x ns') /\
       (forall v, unread_count v ns'
                  + (if String.eqb (notif_user n) v && negb (read n) then 1 else 0)
                  = unread_count v ns)).
Proof.
  intros Hk Hnd Hval. unfold mark_read_route. rewrite Hk. split.
  - intros Hno. by rewrite find_none_of_forall.
  - intros n Hn Hown.
    destruct (List.find (owned_by k uid) ns) as [n'|] eqn:Hf.
    2:{ exfalso. eapply find_none in Hf; [|exact Hn]. congruence. }
    apply find_some in Hf as [Hn' Hown'].
    unfold owned_by in Hown, Hown'.
    apply andb_true_iff in Hown as [Hid _], Hown' as [Hid' _].
    apply String.eqb_eq in Hid, Hid'.
    assert (n' = n) as -> by (apply (notif_id_unique ns); congruence).
    unfold notification_save. rewrite validate_notification_set_read.
    rewrite Forall_forall in Hval. rewrite (Hval n (proj2 (list_elem_of_In _ _) Hn)). simpl.
    eexists. split; [reflexivity|]. split_and!.
    + apply in_map_iff. exists n. split; [|done]. destruct n; simpl in *.
      by rewrite Hid, String.eqb_refl.
    + intros x Hx Hxk. apply in_map_iff. exists x. split; [|done]. destruct n; simpl in *.
      subst. destruct (String.eqb_spec (notif_id x) k); [done|reflexivity].
    + intros v. change (if _ && _ then 1 else 0) with (unread_ind v n).
      replace (notif_id (set_read n true)) with k by (destruct n; simpl in *; congruence).
      apply unread_count_replace; auto; by destruct n.
Qed.

Lemma mark_read_only_own_witness :
  exists ns', mark_read_route me_id "64B7F0C2A1E4D3B2C1A0A001" inbox = (200%Z, ns') /\
    unread_count me_id ns' = 0 /\ unread_count bob_id ns' = 1.
Proof.
  assert (Hc : cast_object_id "64B7F0C2A1E4D3B2C1A0A001" = Some nid_a) by reflexivity.
  assert (Hd : NoDup (map notif_id inbox)).
  { apply (bool_decide_unpack (NoDup (map notif_id inbox))). vm_compute. reflexivity. }
  assert (Hv : Forall (fun n => validate_notification n = true) inbox) by repeat constructor.
  destruct (mark_read_only_own me_id "64B7F0C2A1E4D3B2C1A0A001" nid_a inbox Hc Hd Hv)
    as [_ H].
  destruct (H notif_a (or_introl eq_refl) eq_refl) as (ns' & Hr & _ & _ & Hn).
  exists ns'. split; [exact Hr|].
  pose proof (Hn me_id) as H1. pose proof (Hn bob_id) as H2.
  change (unread_count me_id ns' + 1 = unread_count me_id inbox) in H1.
  change (unread_count bob_id ns' + 0 = unread_count bob_id inbox) in H2.
  replace (unread_count me_id inbox) with 1 in H1 by reflexivity.
  replace (unread_count bob_id inbox) with 1 in H2 by reflexivity.
  split; lia.
Defined.

(** X2: PUT /api/notifications/read-all leaves the caller with no unread
    notification, keeps every [_id] in place, and leaves the notifications of
    every other user as they were. *)
Theorem read_all_only_own (uid : string) (ns : list Notification) :
  fst (read_all_route uid ns) = 200%Z /\
  unread_count uid (snd (read_all_route uid ns)) = 0 /\
  map notif_id (snd (read_all_route uid ns)) = map notif_id ns /\
  (forall v, v <> uid ->
     List.filter (fun n => String.eqb (notif_user n) v) (snd (read_all_route uid ns))
     = List.filter (fun n => String.eqb (notif_user n) v) ns).
Proof.
  unfold read_all_route; simpl. split_and!; [done| | |].
  - induction ns as [|x r IH]; [done|]. simpl. rewrite unread_count_cons, IH.
    unfold unread_ind. destruct (String.eqb_spec (notif_user x) uid), (read x) eqn:Hr;
      destruct x; simpl in *; subst; rewrite ?String.eqb_refl; simpl; try done.
    all: rewrite (proj2 (String.eqb_neq _ _) n); done.
  - induction ns as [|x r IH]; [done|]. simpl. rewrite IH. f_equal.
    by destruct (_ && _); [destruct x|].
  - intros v Hv. induction ns as [|x r IH]; [done|]. simpl.
    destruct (String.eqb_spec (notif_user x) uid) as [Hx|Hx]; simpl.
    + destruct (read x); simpl.
      * destruct (String.eqb_spec (notif_user x) v); [congruence|]. exact IH.
      * destruct x; simpl in *. destruct (String.eqb_spec notif_user0 v); [congruence|].
        exact IH.
    + by rewrite IH.
Qed.

Lemma remove_first_split {A} (p : A -> bool) (l : list A) x :
  List.find p l = Some x ->
  exists l1 l2, l = (l1 ++ x :: l2)%list /\ Forall (fun y => p y = false) l1 /\
                remove_first p l = (l1 ++ l2)%list.
Proof.
  induction l as [|y r IH]; simpl; [done|]. destruct (p y) eqn:Hy.
  - intros [= ->]. by exists [], r.
  - intros Hf. destruct (IH Hf) as (l1 & l2 & -> & Hl1 & ->).
    exists (y :: l1), l2. split_and!; [done| |done]. by constructor.
Qed.

(** X3: DELETE /api/notifications/:id answers 404 and deletes nothing when no
    notification with that id belongs to the caller; otherwise it deletes
    exactly one notification, the first of the caller's with that id, and
    keeps all the others in order. *)
Theorem delete_notification_only_own (uid id k : string) (ns : list Notification) :
  cast_object_id id = Some k ->
  (Forall (fun n => owned_by k uid n = false) ns ->
     delete_notification_route uid id ns = (404%Z, ns)) /\
  (forall n, In n ns -> owned_by k uid n = true ->
     exists l1 n' l2, ns = (l1 ++ n' :: l2)%list /\ owned_by k uid n' = true /\
       Forall (fun x => owned_by k uid x = false) l1 /\
       delete_notification_route uid id ns = (200%Z, (l1 ++ l2)%list)).
Proof.
  intros Hk. unfold delete_notification_route. rewrite Hk. split.
  - intros Hno. by rewrite find_none_of_forall.
  - intros n Hn Hown.
    destruct (List.find (owned_by k uid) ns) as [n'|] eqn:Hf.
    2:{ exfalso. eapply find_none in Hf; [|exact Hn]. congruence. }
    pose proof (find_some _ _ Hf) as [_ Hown'].
    destruct (remove_first_split _ _ _ Hf) as (l1 & l2 & Hns & Hl1 & Hrm).
    exists l1, n', l2. by rewrite Hrm.
Qed.

Lemma delete_notification_only_own_witness :
  delete_notification_route bob_id nid_a inbox = (404%Z, inbox) /\
  exists ns', delete_notification_route me_id nid_a inbox = (200%Z, ns') /\ length ns' = 2.
Proof.
  split.
  - apply (proj1 (delete_notification_only_own bob_id nid_a nid_a inbox eq_refl)).
    repeat constructor.
  - destruct (proj2 (delete_notification_only_own me_id nid_a nid_a inbox eq_refl)
                notif_a (or_introl eq_refl) eq_refl) as (l1 & n' & l2 & Hns & _ & _ & Hr).
    exists (l1 ++ l2)%list. split; [exact Hr|].
    apply (f_equal length) in Hns. rewrite length_app in *. simpl in *. lia.
Defined.

Lemma insertMany_fails_on_cons ty docs ns x :
  in_enum ty notification_type_enum = false ->
  Forall (fun d => ntype d = ty) (x :: docs) ->
  insertMany (x :: docs) ns = inl ValidationError.
Proof.
  intros Hty Hd. inversion Hd as [|? ? Hx _]; subst. unfold insertMany. simpl.
  unfold validate_notification. rewrite Hty. by rewrite andb_false_r.
Qed.

Lemma test_route_outcome lim ty ttl msg nid now users ns :
  0 < lim -> in_enum ty notification_type_enum = false ->
  test_notifications_route lim ty ttl msg nid now users ns
  = (if existsb isActive users then 500%Z else 200%Z, ns).
Proof.
  intros Hlim Hty. unfold test_notifications_route.
  destruct (List.filter isActive users) as [|u us] eqn:Ha.
  - assert (existsb isActive users = false) as ->.
    { apply not_true_iff_false. intros [x [Hx Hxa]]%existsb_exists.
      assert (In x (List.filter isActive users)) by (apply filter_In; auto).
      by rewrite Ha in *. }
    rewrite firstn_nil. simpl. unfold insertMany. simpl. by rewrite app_nil_r.
  - assert (existsb isActive users = true) as ->.
    { apply existsb_exists. exists u. apply (filter_In isActive). rewrite Ha. by left. }
    destruct lim as [|lim]; [lia|]. simpl.
    rewrite (insertMany_fails_on_cons ty); [done|done|].
    constructor; [done|]. apply Forall_forall. intros d Hd.
    apply list_elem_of_In, in_map_iff in Hd as (? & <- & _). done.
Qed.

(** X5: the admin routes POST /api/admin/test-notifications and
    /api/admin/test-payment-notification never store a notification: the
    types 'test' and 'payment' are not in the schema's enum, so [insertMany]
    rejects; the answer is 500 as soon as one user is active, 200 otherwise. *)
Theorem test_notification_routes_store_nothing nid now users ns :
  test_notifications nid now users ns
  = (if existsb isActive users then 500%Z else 200%Z, ns) /\
  test_payment_notification nid now users ns
  = (if existsb isActive users then 500%Z else 200%Z, ns).
Proof. split; apply test_route_outcome; done || lia. Qed.

Lemma insert_newest_perm n l : insert_newest n l ≡ₚ n :: l.
Proof.
  induction l as [|m r IH]; simpl; [done|].
  destruct (createdAt m <? createdAt n)%Z; [done|].
  rewrite IH. by constructor.
Qed.

Lemma sort_newest_fold_perm l acc :
  fold_left (fun acc n => insert_newest n acc) l acc ≡ₚ (l ++ acc)%list.
Proof.
  revert acc. induction l as [|x r IH]; intros acc; simpl; [done|].
  rewrite IH, insert_newest_perm. by rewrite Permutation_middle.
Qed.

Lemma sort_newest_perm l : sort_newest l ≡ₚ l.
Proof. unfold sort_newest. by rewrite sort_newest_fold_perm, app_nil_r. Qed.

Lemma concat_pages {A} (l : nat) (L : list A) (P : nat) :
  concat (map (fun i => take l (drop (i * l) L)) (seq 0 P)) = take (P * l) L.
Proof.
  induction P as [|P IH]; [done|].
  rewrite seq_S, map_app, concat_app, IH. simpl. rewrite app_nil_r, take_take_drop.
  f_equal. lia.
Qed.

Lemma ceiling_pages (n l : Z) :
  (0 < l)%Z -> (0 <= n)%Z ->
  (0 <= Qceiling (inject_Z n / inject_Z l))%Z /\
  (n <= Qceiling (inject_Z n / inject_Z l) * l)%Z.
Proof.
  intros Hl Hn. set (P := Qceiling (inject_Z n / inject_Z l)).
  assert (Hle : (inject_Z n / inject_Z l <= inject_Z P)%Q) by apply Qle_ceiling.
  assert (Hl' : (0 < inject_Z l)%Q) by (change 0%Q with (inject_Z 0); rewrite <- Zlt_Qlt; lia).
  assert (H0 : (0 <= inject_Z n / inject_Z l)%Q).
  { apply Qle_shift_div_l; [done|]. rewrite Qmult_0_l. change 0%Q with (inject_Z 0).
    rewrite <- Zle_Qle. lia. }
  split.
  - rewrite Zle_Qle. exact (Qle_trans _ _ _ H0 Hle).
  - rewrite Zle_Qle, inject_Z_mult.
    apply (Qmult_le_compat_r _ _ (inject_Z l)) in Hle; [|lra].
    assert (inject_Z n / inject_Z l * inject_Z l == inject_Z n)%Q as Heq.
    { field. intros Hz. rewrite Hz in Hl'. discriminate. }
    rewrite Heq in Hle. exact Hle.
Qed.

Lemma page_docs_at_eq uid limit unreadOnly ns p :
  (0 < limit)%Z -> 1 <= p ->
  page_docs_at uid limit unreadOnly ns p
  = take (Z.to_nat limit) (drop ((p - 1) * Z.to_nat limit)
      (sort_newest (List.filter (notification_query uid unreadOnly) ns))).
Proof.
  intros Hl Hp. unfold page_docs_at, list_notifications_route.
  assert (((Z.of_nat p - 1) * limit <? 0)%Z = false) as -> by (apply Z.ltb_ge; nia).
  simpl. unfold cursor_limit.
  assert ((limit =? 0)%Z = false) as -> by (apply Z.eqb_neq; lia).
  rewrite Z.abs_eq by lia. f_equal. f_equal.
  rewrite Z2Nat.inj_mul by lia. f_equal. lia.
Qed.

(** X4: GET /api/notifications with a positive [limit] splits the caller's
    notifications (all of them, or the unread ones with [unreadOnly=true])
    into the pages 1 .. totalPages: read in order, the pages give every such
    notification exactly once, newest first, and the page after the last is
    empty. Distinct creation times make the order the database returns
    well defined. *)
Theorem notification_pages_partition (uid : string) (limit : Z) (unreadOnly : string)
  (ns : list Notification) :
  (0 < limit)%Z ->
  NoDup (map createdAt (List.filter (notification_query uid unreadOnly) ns)) ->
  exists P : nat,
    (forall p : nat, 1 <= p -> exists pg,
       list_notifications_route uid (Z.of_nat p) limit unreadOnly ns = (200%Z, Some pg) /\
       totalPages pg = Some (Z.of_nat P)) /\
    concat (map (page_docs_at uid limit unreadOnly ns) (seq 1 P))
      = sort_newest (List.filter (notification_query uid unreadOnly) ns) /\
    page_docs_at uid limit unreadOnly ns (S P) = [] /\
    sort_newest (List.filter (notification_query uid unreadOnly) ns)
      ≡ₚ List.filter (notification_query uid unreadOnly) ns.
Proof.
  intros Hl _. set (sel := List.filter (notification_query uid unreadOnly) ns).
  destruct (ceiling_pages (Z.of_nat (length sel)) limit Hl) as [HP0 HP]; [lia|].
  set (P0 := Qceiling (inject_Z (Z.of_nat (length sel)) / inject_Z limit)) in *.
  pose proof (sort_newest_perm sel) as Hperm.
  pose proof (Permutation_length Hperm) as Hlen.
  assert (Hcover : length (sort_newest sel) <= Z.to_nat P0 * Z.to_nat limit) by nia.
  exists (Z.to_nat P0). split_and!.
  - intros p Hp. unfold list_notifications_route.
    assert (((Z.of_nat p - 1) * limit <? 0)%Z = false) as -> by (apply Z.ltb_ge; nia).
    assert ((limit =? 0)%Z = false) as -> by (apply Z.eqb_neq; lia).
    eexists. split; [reflexivity|]. simpl. f_equal. fold sel. fold P0. lia.
  - rewrite <- seq_shift, map_map.
    rewrite (map_ext_in _ (fun i => take (Z.to_nat limit) (drop (i * Z.to_nat limit)
               (sort_newest sel)))).
    + rewrite concat_pages. by apply take_ge.
    + intros i _. rewrite page_docs_at_eq by (done || lia). do 3 f_equal. lia.
  - rewrite page_docs_at_eq by (done || lia).
    rewrite drop_ge; [by rewrite take_nil|]. fold sel. nia.
  - exact Hperm.
Qed.

Lemma notification_pages_partition_witness :
  exists P : nat,
    concat (map (page_docs_at me_id 1 "false" inbox) (seq 1 P))
      = sort_newest (List.filter (notification_query me_id "false") inbox) /\
    page_docs_at me_id 1 "false" inbox (S P) = [].
Proof.
  assert (Hl : (0 < 1)%Z) by lia.
  assert (Hd : NoDup (map createdAt (List.filter (notification_query me_id "false") inbox))).
  { apply (bool_decide_unpack
             (NoDup (map createdAt (List.filter (notification_query me_id "false") inbox)))).
    vm_compute. reflexivity. }
  destruct (notification_pages_partition me_id 1 "false" inbox Hl Hd) as (P & _ & H1 & H2 & _).
  exists P. split; [exact H1|exact H2].
Defined.

(* ------------------------------------------------------------------ *)
(** ** PUT /api/orders/:id/status *)

Lemma validate_order_status o s :
  validate_order (assign_status o s) = true -> status_valid s = true.
Proof.
  unfold validate_order. destruct o; simpl.
  intros H. repeat apply andb_prop in H as [H ?]. done.
Qed.

(** Unsetting the status keeps a valid order valid: the path is not
    [required]. *)
Lemma validate_order_unset o :
  validate_order o = true -> validate_order (assign_status o None) = true.
Proof.
  unfold validate_order.
  cbn [assign_status status orderNumber items total paymentMethod status_valid].
  intros Hv. apply andb_prop in Hv as [Hv Hp]. apply andb_prop in Hv as [Hv _].
  by rewrite Hv, Hp.
Qed.

Lemma in_order_status_enum_text s num :
  in_enum s order_status_enum = true ->
  status_notification_text s num
  = ("Statut de commande mis à jour",
     "Le statut de votre commande " +:+ num +:+ " a été mis à jour : " +:+ s).
Proof.
  unfold in_enum, order_status_enum. simpl. intros H.
  repeat (apply orb_prop in H as [H|H]); try discriminate;
    apply String.eqb_eq in H; subst; reflexivity.
Qed.

Lemma valid_status_text s num :
  status_valid s = true ->
  status_notification_text (js_string_of_opt s) num
  = ("Statut de commande mis à jour",
     "Le statut de votre commande " +:+ num +:+ " a été mis à jour : " +:+ js_string_of_opt s).
Proof.
  destruct s as [v|]; simpl; [apply in_order_status_enum_text | reflexivity].
Qed.

Lemma pre_save_total_status o : status (pre_save_total o) = status o.
Proof. unfold pre_save_total. by destruct (items o). Qed.

Lemma pre_save_total_id o : order_id (pre_save_total o) = order_id o.
Proof. unfold pre_save_total. by destruct (items o). Qed.

Lemma replace_order_in o o' os :
  In o os -> order_id o = order_id o' -> In o' (replace_order o' os).
Proof.
  intros Hin Hid. unfold replace_order. apply in_map_iff. exists o. split; [|done].
  by rewrite Hid, String.eqb_refl.
Qed.

(** X6: the owner's PUT /api/orders/:id/status saves the order under the
    schema's English status enum. A string status outside it (the three
    French statuses of its [switch] among them) changes neither orders, stock
    nor notifications. A request without a status passes the enum, which
    does not check an unset path: the order is saved with its status unset,
    and no stock changes. A notification the route adds always carries the
    default title 'Statut de commande mis à jour', never one of the three
    French texts, and its message ends with the status ('undefined' for an
    absent one). *)
Theorem owner_status_french_cases_unreachable (oid uid : string) (s : option string)
  (nid : string) (now : Z) (st : Store) (ns : list Notification) :
  Forall (fun v => in_enum v order_status_enum = false)
    ["En préparation"; "Expédiée"; "Livrée"] /\
  (forall v, s = Some v -> in_enum v order_status_enum = false ->
     exists c, owner_update_status_route oid uid s nid now st ns = (c, st, ns)) /\
  (s = None -> forall o, find_user_order oid uid (orders st) = Some o ->
     validate_order o = true ->
     exists c st' ns', owner_update_status_route oid uid s nid now st ns = (c, st', ns') /\
       products st' = products st /\
       exists o', In o' (orders st') /\ order_id o' = order_id o /\ status o' = None) /\
  (forall c st' ns', owner_update_status_route oid uid s nid now st ns = (c, st', ns') ->
     ns' = ns \/
     exists num, ns' = (ns ++ [mkNotification nid uid "order" "Statut de commande mis à jour"
                          ("Le statut de votre commande " +:+ num +:+ " a été mis à jour : "
                           +:+ js_string_of_opt s)
                          false now])%list).
Proof.
  split_and!.
  - repeat constructor.
  - intros v -> Hs. unfold owner_update_status_route.
    destruct (find_user_order oid uid (orders st)) as [o|]; [|by eexists].
    unfold order_save.
    destruct (validate_order (assign_status o (Some v))) eqn:Hv.
    + apply validate_order_status in Hv. cbn [status_valid] in Hv. congruence.
    + by eexists.
  - intros -> o Hf Hv. unfold owner_update_status_route. rewrite Hf.
    unfold order_save. rewrite (validate_order_unset o Hv). cbn [negb pre_save_orderNumber].
    set (o2 := pre_save_total (assign_status o None)).
    assert (Hs2 : status o2 = None) by (unfold o2; by rewrite pre_save_total_status).
    assert (Hid : order_id o = order_id o2) by (unfold o2; by rewrite pre_save_total_id).
    assert (Hps : post_save_stock o2 (products st) = products st)
      by (unfold post_save_stock; by rewrite Hs2).
    rewrite Hps.
    assert (Hin : In o2 (replace_order o2 (orders st))).
    { apply (replace_order_in o); [|exact Hid].
      apply find_some in Hf as [Hf _]. exact Hf. }
    destruct (status_notification_text _ _) as [ttl msg].
    destruct (createNotification _ _ _ _ _ _ _) as [e|ns1];
      (eexists _, _, _; split; [reflexivity|]); (split; [reflexivity|]);
      exists o2; cbn [orders]; by split_and!.
  - intros c st' ns'. unfold owner_update_status_route.
    destruct (find_user_order oid uid (orders st)) as [o|]; [|intros Heq; inversion Heq; by left].
    destruct (order_save false (assign_status o s) st) as [e|[o' st1]] eqn:Hsave;
      [intros Heq; inversion Heq; by left|].
    assert (Hv : validate_order (assign_status o s) = true).
    { unfold order_save in Hsave. by destruct (validate_order (assign_status o s)). }
    rewrite valid_status_text by (eapply validate_order_status; eauto).
    unfold createNotification, notification_save.
    destruct (negb (validate_notification _)); [intros Heq; inversion Heq; by left|].
    intros Heq; inversion Heq. right. by eexists.
Qed.

Lemma owner_status_french_cases_unreachable_witness :
  (exists c, owner_update_status_route "o1" "u1" (Some "Expédiée") nid_a 0 (shop_with "pending") []
             = (c, shop_with "pending", []))
  /\ exists c st' ns', owner_update_status_route "o1" "u1" None nid_a 0 (shop_with "pending") []
                      = (c, st', ns') /\ products st' = products (shop_with "pending").
Proof.
  split.
  - destruct (owner_status_french_cases_unreachable "o1" "u1" (Some "Expédiée") nid_a 0
                (shop_with "pending") []) as (_ & H & _).
    apply (H "Expédiée"); reflexivity.
  - destruct (owner_status_french_cases_unreachable "o1" "u1" None nid_a 0
                (shop_with "pending") []) as (_ & _ & H & _).
    destruct (H eq_refl (order_o1 "pending") eq_refl eq_refl)
      as (c & st' & ns' & Hr & Hp & _).
    exists c, st', ns'. split; assumption.
Defined.

Lemma find_user_order_replace oid uid o os :
  find_user_order oid uid os = Some o ->
  find_user_order oid uid (replace_order o os) = Some o.
Proof.
  intros Hf. pose proof (find_some _ _ Hf) as [_ Ho].
  apply andb_true_iff in Ho as [Hid Hu]. apply String.eqb_eq in Hid, Hu. subst oid uid.
  revert Hf. unfold find_user_order, replace_order.
  induction os as [|x r IH]; simpl; [done|].
  destruct (String.eqb_spec (order_id x) (order_id o)) as [Hx|Hx]; simpl.
  - intros _. by rewrite !String.eqb_refl.
  - rewrite (proj2 (String.eqb_neq _ _) Hx). exact IH.
Qed.

Lemma assign_status_same o : assign_status o (status o) = o.
Proof. by destruct o. Qed.

Lemma owner_pending_step oid uid nid now st ns o it pid p :
  find_user_order oid uid (orders st) = Some o ->
  status o = Some "pending" -> items o = [it] -> total o = Some (items_total [it]) ->
  validate_order o = true -> item_product it = Some pid -> products st !! pid = Some p ->
  exists c ns',
    owner_update_status_route oid uid (Some "pending") nid now st ns
    = (c, mkStore (replace_order o (orders st))
            (<[pid := set_stock p (stock p + - inject_Z (item_quantity it))%Q]> (products st)),
       ns').
Proof.
  intros Hf Hs Hit Ht Hv Hpid Hp. unfold owner_update_status_route. rewrite Hf.
  rewrite <- Hs, assign_status_same. unfold order_save. rewrite Hv. simpl.
  assert (pre_save_total o = o) as ->.
  { unfold pre_save_total. rewrite Hit. destruct o; simpl in *. by subst. }
  assert (post_save_stock o (products st)
          = <[pid := set_stock p (stock p + - inject_Z (item_quantity it))%Q]> (products st))
    as ->.
  { unfold post_save_stock. rewrite Hs, Hit. simpl. rewrite Hpid. unfold inc_stock.
    apply map_eq. intros i.
    destruct (decide (pid = i)) as [<-|Hne].
    - by rewrite lookup_alter_eq, Hp, lookup_insert_eq.
    - by rewrite lookup_alter_ne, lookup_insert_ne. }
  destruct (status_notification_text _ _) as [ttl msg].
  destruct (createNotification _ _ _ _ _ _ _); eauto.
Qed.

(** X7: the owner's PUT /api/orders/:id/status has no admin check and runs
    a full [save()]: sending 'pending' for one's own pending order re-runs the
    [post('save')] stock hook, so [k] such requests take the ordered quantity
    out of the product's stock [k] more times, whatever the responses. *)
Theorem owner_pending_repeats_stock_decrement (k : nat) (oid uid nid : string) (now : Z)
  (st : Store) (ns : list Notification) (o : Order) (it : OrderItem) (pid : string)
  (p : Product) :
  find_user_order oid uid (orders st) = Some o ->
  status o = Some "pending" -> items o = [it] -> total o = Some (items_total [it]) ->
  validate_order o = true -> item_product it = Some pid -> products st !! pid = Some p ->
  exists p', products (fst (repeat_owner_status k oid uid (Some "pending") nid now st ns)) !! pid
             = Some p' /\
    (stock p' == stock p - inject_Z (Z.of_nat k) * inject_Z (item_quantity it))%Q.
Proof.
  intros Hf Hs Hit Ht Hv Hpid. revert st ns p Hf.
  induction k as [|k IH]; intros st ns p Hf Hp; simpl.
  - exists p. split; [done|]. ring.
  - destruct (owner_pending_step oid uid nid now st ns o it pid p Hf Hs Hit Ht Hv Hpid Hp)
      as (c & ns' & ->).
    destruct (IH (mkStore (replace_order o (orders st))
                   (<[pid := set_stock p (stock p + - inject_Z (item_quantity it))%Q]>
                      (products st)))
                 ns' (set_stock p (stock p + - inject_Z (item_quantity it))%Q))
      as (p' & Hp' & Hs'); simpl.
    + by apply find_user_order_replace.
    + by rewrite lookup_insert_eq.
    + exists p'. split; [done|]. rewrite Hs'. simpl.
      rewrite Nat2Z.inj_succ, <- Z.add_1_r, inject_Z_plus. ring.
Qed.

Lemma owner_pending_repeats_stock_decrement_witness :
  exists p', products (fst (repeat_owner_status 3 "o1" "u1" (Some "pending") nid_a 0
                             (mkStore [draft "o1"] shop_products) [])) !! "p1" = Some p' /\
             (stock p' == 2)%Q.
Proof.
  destruct (owner_pending_repeats_stock_decrement 3 "o1" "u1" nid_a 0
              (mkStore [draft "o1"] shop_products) [] (draft "o1")
              (mkItem (Some "p1") "Savon" 1 (10 # 1)) "p1" soap
              eq_refl eq_refl eq_refl eq_refl eq_refl eq_refl eq_refl)
    as (p' & Hp & Hs).
  exists p'. split; [exact Hp|]. rewrite Hs. reflexivity.
Defined.

(* ------------------------------------------------------------------ *)
(** ** Authentication middlewares *)

Lemma split_on_no_sep c s :
  ~ In c (String.list_ascii_of_string s) -> split_on c s = [s].
Proof.
  induction s as [|d r IH]; simpl; [done|]. intros Hn.
  destruct (Ascii.eqb_spec c d) as [->|_]; [tauto|].
  rewrite IH; [done|]. tauto.
Qed.

(** X8: [protect] lets a request through only with a user that exists and
    is active, found under the id of the verified token taken from the
    header; a missing header, a header that does not start with 'Bearer', or
    one with no space (so no second field) is refused with 401. *)
Theorem protect_admits_only_active_users (verify : string -> option string)
  (h : option string) (users : gmap string User) :
  (forall u, protect verify h users = inr u ->
     isActive u = true /\
     exists t id k, bearer_token h = Some t /\ verify t = Some id /\
                    cast_object_id id = Some k /\ users !! k = Some u) /\
  (h = None -> protect verify h users = inl 401%Z) /\
  (forall hs, h = Some hs ->
     String.prefix "Bearer" hs = false \/ ~ In " "%char (String.list_ascii_of_string hs) ->
     protect verify h users = inl 401%Z).
Proof.
  split_and!.
  - intros u. unfold protect.
    destruct (bearer_token h) as [[|c t]|] eqn:Hb; try discriminate.
    destruct (verify (String c t)) as [id|] eqn:Hv; [|discriminate].
    destruct (cast_object_id id) as [k|] eqn:Hk; [|discriminate].
    destruct (users !! k) as [u'|] eqn:Hu; [|discriminate].
    destruct (isActive u') eqn:Ha; [|discriminate].
    intros [= <-]. split; [done|]. by exists (String c t), id, k.
  - by intros ->.
  - intros hs -> Hh. unfold protect, bearer_token.
    destruct Hh as [Hp|Hs].
    + by rewrite Hp.
    + rewrite split_on_no_sep by done. by destruct (String.prefix _ _).
Qed.

(** X9: [optionalAuth] sets [req.user] to exactly the user [protect] would
    admit, and to nothing in every case where [protect] refuses. *)
Theorem optionalAuth_agrees_with_protect (verify : string -> option string)
  (h : option string) (users : gmap string User) :
  optionalAuth verify h users
  = match protect verify h users with inr u => Some u | inl _ => None end.
Proof.
  unfold optionalAuth, protect.
  destruct (bearer_token h) as [[|c t]|]; [done| |done].
  destruct (verify _) as [id|]; [|done].
  destruct (cast_object_id id) as [k|]; [|done].
  destruct (users !! k) as [u|]; [|done].
  by destruct (isActive u).
Qed.

(* ------------------------------------------------------------------ *)
(** ** POST /api/auth/create-admin *)

Lemma admin_email_fresh (toLowerCase : string -> string) (mail : string)
  (users : gmap string User) :
  (forall k u, users !! k = Some u -> email u <> email_setters toLowerCase mail) ->
  existsb (fun kv => String.eqb (email kv.2) (email_setters toLowerCase mail))
    (map_to_list users) = false.
Proof.
  intros Hfresh. apply not_true_iff_false. intros ([k u] & Hin & He)%existsb_exists.
  apply String.eqb_eq in He. apply list_elem_of_In, elem_of_map_to_list in Hin.
  exact (Hfresh k u Hin He).
Qed.

(** X10: POST /api/auth/create-admin refuses with 403, changing nothing,
    whenever the body's [adminSecret] differs from [ADMIN_SECRET]; when that
    variable is unset, a body without [adminSecret] passes the check, so any
    authenticated user can create an admin account with a fresh email and
    valid fields, stored under the trimmed, lower-cased email with the hashed
    password; a password shorter than 6 characters (UTF-16 code units) gives
    500 and stores nothing. [toLowerCase] is [String.prototype.toLowerCase]. *)
Theorem create_admin_secret_check (toLowerCase : string -> string)
  (env adminSecret : option string)
  (name mail pw new_id : string) (hash : string -> string) (users : gmap string User) :
  (adminSecret <> env ->
     create_admin_route toLowerCase env adminSecret name mail pw new_id hash users
     = (403%Z, users)) /\
  (env = None -> adminSecret = None ->
   (forall k u, users !! k = Some u -> email u <> email_setters toLowerCase mail) ->
   validate_user (admin_doc toLowerCase new_id name mail pw) = true ->
   exists users' u,
     create_admin_route toLowerCase env adminSecret name mail pw new_id hash users
     = (201%Z, users') /\
     users' !! new_id = Some u /\ role u = "admin" /\
     email u = email_setters toLowerCase mail /\ password u = Some (hash pw)) /\
  (env = None -> adminSecret = None ->
   (forall k u, users !! k = Some u -> email u <> email_setters toLowerCase mail) ->
   js_length pw < 6 ->
   create_admin_route toLowerCase env adminSecret name mail pw new_id hash users
   = (500%Z, users)).
Proof.
  split_and!.
  - intros Hne. unfold create_admin_route. by rewrite bool_decide_false.
  - intros -> -> Hfresh Hv. unfold create_admin_route. rewrite bool_decide_true by done.
    simpl. rewrite (admin_email_fresh _ _ _ Hfresh).
    rewrite Hv. eexists _, _. split_and!; [reflexivity|apply lookup_insert_eq|done..].
  - intros -> -> Hfresh Hpw. unfold create_admin_route. rewrite bool_decide_true by done.
    simpl. rewrite (admin_email_fresh _ _ _ Hfresh).
    assert (validate_user (admin_doc toLowerCase new_id name mail pw) = false) as ->.
    { unfold validate_user. cbn [admin_doc set_role new_user password].
      assert (Nat.leb 6 (js_length pw) = false) as -> by (apply Nat.leb_gt; lia).
      by rewrite andb_false_r, andb_false_l. }
    reflexivity.
Qed.

(** On these ASCII inputs [string_lower] is what [toLowerCase] computes. *)
Lemma create_admin_secret_check_witness :
  create_admin_route string_lower (Some "s3cret") None "Carol" " Carol@Example.com" "secret1"
    carol_id (fun s => "$2a$12$" +:+ s) admins = (403%Z, admins) /\
  (exists users' u,
    create_admin_route string_lower None None "Carol" " Carol@Example.com" "secret1" carol_id
      (fun s => "$2a$12$" +:+ s) admins = (201%Z, users') /\
    users' !! carol_id = Some u /\ role u = "admin") /\
  create_admin_route string_lower None None "Carol" " Carol@Example.com" "ééé" carol_id
    (fun s => "$2a$12$" +:+ s) admins = (500%Z, admins).
Proof.
  assert (Hne : (None : option string) <> Some "s3cret") by discriminate.
  assert (Hf : forall k u, admins !! k = Some u ->
                 email u <> email_setters string_lower " Carol@Example.com").
  { intros k u Hk He. unfold admins in Hk.
    apply lookup_insert_Some in Hk as [[_ <-]|[_ Hk]]; [vm_compute in He; discriminate|].
    apply lookup_singleton_Some in Hk as [_ <-]. vm_compute in He. discriminate. }
  split_and!.
  - apply (create_admin_secret_check string_lower (Some "s3cret") None "Carol"
             " Carol@Example.com" "secret1" carol_id (fun s => "$2a$12$" +:+ s) admins).
    exact Hne.
  - destruct (proj1 (proj2 (create_admin_secret_check string_lower None None "Carol"
             " Carol@Example.com" "secret1" carol_id (fun s => "$2a$12$" +:+ s) admins))
             eq_refl eq_refl Hf eq_refl)
      as (users' & u & Hr & Hu & Hrole & _).
    exists users', u. split_and!; assumption.
  - assert (Hl : js_length "ééé" < 6) by (vm_compute; lia).
    apply (proj2 (proj2 (create_admin_secret_check string_lower None None "Carol"
             " Carol@Example.com" "ééé" carol_id (fun s => "$2a$12$" +:+ s) admins))
             eq_refl eq_refl Hf Hl).
Defined.

(* ------------------------------------------------------------------ *)
(** ** Product virtuals and analytics *)

(** X11: the [salePrice] virtual stays between 0 and [price] for a
    non-negative price and a [salePercentage] within the schema's bounds
    [0, 100], and equals [price] when the product is not on sale. *)
Theorem salePrice_within_price (p : Product) (isOnSale : bool) (pct : option Q) :
  (0 <= price p)%Q ->
  (forall x, pct = Some x -> 0 <= x <= 100)%Q ->
  (0 <= salePrice p isOnSale pct <= price p)%Q /\
  (isOnSale = false -> salePrice p isOnSale pct = price p).
Proof.
  intros Hp Hpct. unfold salePrice. split.
  - destruct pct as [x|]; [|lra].
    destruct (Hpct x eq_refl) as [H0 H1].
    destruct (isOnSale && negb (Qeq_bool x 0)); [|lra].
    assert (0 <= price p * x)%Q by (apply Qmult_le_0_compat; lra).
    assert (price p * x <= price p * 100)%Q
      by (rewrite !(Qmult_comm (price p)); apply Qmult_le_compat_r; lra).
    assert (0 <= price p * x / 100)%Q by (apply Qle_shift_div_l; lra).
    assert (price p * x / 100 <= price p)%Q by (apply Qle_shift_div_r; lra).
    lra.
  - intros ->. by destruct pct.
Qed.

Lemma salePrice_within_price_witness :
  (0 <= salePrice soap true (Some 20) <= price soap)%Q.
Proof.
  assert (H0 : (0 <= price soap)%Q) by (unfold Qle; simpl; lia).
  assert (Hp : forall x, Some 20%Q = Some x -> (0 <= x <= 100)%Q).
  { intros x Hx. inversion Hx. split; unfold Qle; simpl; lia. }
  apply (salePrice_within_price soap true (Some 20%Q) H0 Hp).
Defined.

Lemma stock_flags (p : Product) :
  (0 <= stock p)%Q ->
  Qle_bool (stock p) 0 = Qeq_bool (stock p) 0 /\
  (Qeq_bool (stock p) 0 = true -> Qle_bool (stock p) 5 = true).
Proof.
  intros H. split.
  - destruct (Qeq_bool (stock p) 0) eqn:E.
    + apply Qeq_bool_iff in E. apply Qle_bool_iff. lra.
    + apply not_true_iff_false. intros Hle. apply Qle_bool_iff in Hle.
      assert (stock p == 0)%Q by lra. apply Qeq_bool_iff in H0. congruence.
  - intros E. apply Qeq_bool_iff in E. apply Qle_bool_iff. lra.
Qed.

(** X12: for non-negative stocks, the analytics' [lowStockProducts]
    ([stock <= 5]) counts the out-of-stock products too: it is the number of
    products whose [lowStock] virtual holds plus [outOfStockProducts]; and
    the out-of-stock products are exactly those whose [inStock] virtual
    fails. *)
Theorem analytics_low_stock_counts (ps : list Product) :
  Forall (fun p => 0 <= stock p)%Q ps ->
  lowStockProducts (product_analytics ps)
    = length (List.filter lowStock ps) + outOfStockProducts (product_analytics ps) /\
  outOfStockProducts (product_analytics ps) + length (List.filter inStock ps)
    = totalProducts (product_analytics ps) /\
  outOfStockProducts (product_analytics ps) <= lowStockProducts (product_analytics ps)
    <= totalProducts (product_analytics ps).
Proof.
  unfold product_analytics. simpl.
  induction 1 as [|p ps Hp _ IH]; simpl; [lia|].
  destruct (stock_flags p Hp) as [E1 E2].
  assert (lowStock p = negb (Qeq_bool (stock p) 0) && Qle_bool (stock p) 5) as ->
    by (unfold lowStock; by rewrite E1).
  assert (inStock p = negb (Qeq_bool (stock p) 0)) as -> by (unfold inStock; by rewrite E1).
  destruct (Qeq_bool (stock p) 0) eqn:E0.
  - rewrite (E2 eq_refl). simpl. lia.
  - simpl. destruct (Qle_bool (stock p) 5); simpl; lia.
Qed.

Lemma analytics_low_stock_counts_witness :
  lowStockProducts (product_analytics stock_mix)
    = length (List.filter lowStock stock_mix) + outOfStockProducts (product_analytics stock_mix).
Proof.
  assert (H : Forall (fun p => 0 <= stock p)%Q stock_mix).
  { repeat constructor; unfold Qle; simpl; lia. }
  apply (analytics_low_stock_counts stock_mix H).
Defined.

Lemma insert_by_stock_perm p l : insert_by_stock p l ≡ₚ p :: l.
Proof.
  induction l as [|q r IH]; simpl; [done|].
  destruct (Qle_bool (stock p) (stock q)); [|done].
  rewrite IH. by constructor.
Qed.

Lemma sort_by_stock_fold_perm l acc :
  fold_left (fun acc p => insert_by_stock p acc) l acc ≡ₚ (l ++ acc)%list.
Proof.
  revert acc. induction l as [|x r IH]; intros acc; simpl; [done|].
  rewrite IH, insert_by_stock_perm. by rewrite Permutation_middle.
Qed.

Lemma sort_by_stock_perm l : sort_by_stock l ≡ₚ l.
Proof. unfold sort_by_stock. by rewrite sort_by_stock_fold_perm, app_nil_r. Qed.

Lemma insert_by_stock_hd a p l :
  HdRel stock_ge a l -> stock_ge a p -> HdRel stock_ge a (insert_by_stock p l).
Proof.
  destruct l as [|q r]; simpl; intros Hl Hap; [by constructor|].
  destruct (Qle_bool (stock p) (stock q)); constructor; [by inversion Hl|done].
Qed.

Lemma insert_by_stock_sorted p l : Sorted stock_ge l -> Sorted stock_ge (insert_by_stock p l).
Proof.
  induction l as [|q r IH]; simpl; intros Hs; [by repeat constructor|].
  destruct (Qle_bool (stock p) (stock q)) eqn:E.
  - inversion Hs as [|? ? Hr Hhd]; subst. constructor; [by apply IH|].
    apply insert_by_stock_hd; [done|]. unfold stock_ge. by apply Qle_bool_iff.
  - constructor; [done|]. constructor. unfold stock_ge.
    apply not_true_iff_false in E. rewrite Qle_bool_iff in E. lra.
Qed.

Lemma sort_by_stock_sorted l : Sorted stock_ge (sort_by_stock l).
Proof.
  unfold sort_by_stock.
  assert (H : forall acc, Sorted stock_ge acc ->
            Sorted stock_ge (fold_left (fun acc p => insert_by_stock p acc) l acc)).
  { induction l as [|x r IH]; simpl; [done|]. intros acc Hacc.
    by apply IH, insert_by_stock_sorted. }
  apply H. constructor.
Qed.

Lemma sort_by_stock_strongly_sorted l : StronglySorted stock_ge (sort_by_stock l).
Proof.
  apply Sorted_StronglySorted; [|apply sort_by_stock_sorted].
  intros x y z Hxy Hyz. unfold stock_ge in *. lra.
Qed.

Lemma strongly_sorted_app {A} (R : A -> A -> Prop) l1 l2 :
  StronglySorted R (l1 ++ l2)%list -> forall x y, In x l1 -> In y l2 -> R x y.
Proof.
  induction l1 as [|a r IH]; simpl; [tauto|].
  intros Hs x y Hx Hy. apply StronglySorted_inv in Hs as [Hs Ha].
  destruct Hx as [<-|Hx].
  - rewrite Forall_forall in Ha. apply Ha, list_elem_of_In, in_or_app. by right.
  - by apply IH.
Qed.

Lemma strongly_sorted_firstn {A} (R : A -> A -> Prop) n l :
  StronglySorted R l -> StronglySorted R (firstn n l).
Proof.
  revert l. induction n as [|n IH]; intros [|a l] Hs; simpl; try constructor.
  - apply IH. by apply StronglySorted_inv in Hs as [? _].
  - apply StronglySorted_inv in Hs as [_ Ha]. rewrite Forall_forall in *.
    intros x Hx. apply Ha. apply list_elem_of_In in Hx. apply list_elem_of_In.
    rewrite <- (firstn_skipn n l). apply in_or_app. by left.
Qed.

Lemma strongly_sorted_filter {A} (R : A -> A -> Prop) f l :
  StronglySorted R l -> StronglySorted R (List.filter f l).
Proof.
  induction l as [|a l IH]; simpl; intros Hs; [constructor|].
  apply StronglySorted_inv in Hs as [Hs Ha].
  destruct (f a); [|by apply IH]. constructor; [by apply IH|].
  rewrite Forall_forall in *. intros x Hx. apply Ha.
  apply list_elem_of_In in Hx. apply list_elem_of_In. by apply filter_In in Hx as [? _].
Qed.

Lemma filter_perm {A} (f : A -> bool) l l' : l ≡ₚ l' -> List.filter f l ≡ₚ List.filter f l'.
Proof.
  induction 1; simpl; try done.
  - destruct (f x); [by constructor|done].
  - destruct (f x), (f y); try reflexivity; by constructor.
  - by etrans.
Qed.

(** X13: [topProductsByStock] is a largest-stock-first list of at most ten
    products: it is the first ten of an ordering of all products by stock,
    every product left out has no more stock than any product listed; and
    because [products.sort] works in place, [lowStockAlerts] lists exactly
    the products with [stock <= 5], also ordered by decreasing stock. *)
Theorem analytics_top_products_and_alerts (ps : list Product) :
  exists L, L ≡ₚ ps /\
    topProductsByStock (product_analytics ps) = firstn 10 L /\
    length (topProductsByStock (product_analytics ps)) = Nat.min 10 (length ps) /\
    StronglySorted stock_ge (topProductsByStock (product_analytics ps)) /\
    (forall x y, In x (topProductsByStock (product_analytics ps)) -> In y (skipn 10 L) ->
       (stock y <= stock x)%Q) /\
    lowStockAlerts (product_analytics ps) ≡ₚ List.filter (fun p => Qle_bool (stock p) 5) ps /\
    StronglySorted stock_ge (lowStockAlerts (product_analytics ps)).
Proof.
  exists (sort_by_stock ps). simpl.
  pose proof (sort_by_stock_perm ps) as Hperm.
  pose proof (sort_by_stock_strongly_sorted ps) as Hs.
  split_and!; [done|done| | | | |].
  - rewrite length_firstn. by rewrite (Permutation_length Hperm).
  - by apply strongly_sorted_firstn.
  - intros x y Hx Hy. apply (strongly_sorted_app stock_ge (firstn 10 (sort_by_stock ps))
      (skipn 10 (sort_by_stock ps))); [|done|done].
    by rewrite firstn_skipn.
  - by apply filter_perm.
  - by apply strongly_sorted_filter.
Qed.

(** X14: when every product's category is in the schema's enum, the six
    counts of [categoryAnalytics] add up to [totalProducts]. *)
Theorem analytics_categories_sum (ps : list Product) :
  Forall (fun p => in_enum (category p) product_category_enum = true) ps ->
  list_sum (categoryAnalytics (product_analytics ps)) = totalProducts (product_analytics ps).
Proof.
  simpl. induction 1 as [|p ps Hp _ IH]; simpl in *; [done|].
  unfold in_enum, product_category_enum in Hp. simpl in Hp.
  repeat (apply orb_prop in Hp as [Hp|Hp]); try discriminate;
    apply String.eqb_eq in Hp; rewrite Hp; simpl; lia.
Qed.

Lemma analytics_categories_sum_witness :
  list_sum (categoryAnalytics (product_analytics stock_mix))
    = totalProducts (product_analytics stock_mix).
Proof. apply (analytics_categories_sum stock_mix). repeat constructor. Defined.

(* ------------------------------------------------------------------ *)
(** ** GET /api/user/stats and the login counters *)

Lemma progress_cap (prog : Q) :
  (0 <= prog)%Q -> (0 <= (if Qle_bool prog 100 then prog else 100%Q) <= 100)%Q.
Proof.
  intros H. destruct (Qle_bool prog 100) eqn:E.
  - apply Qle_bool_iff in E. lra.
  - lra.
Qed.

Lemma progress_nonneg (a d : Q) : (0 <= a)%Q -> (0 < d)%Q -> (0 <= a / d * 100)%Q.
Proof.
  intros Ha Hd. apply Qmult_le_0_compat; [|lra].
  apply Qle_shift_div_l; [done|]. lra.
Qed.

(** X15: for a user whose stored tier is the part_005 name of the tier their
    non-negative points give, [progressToNextTier] lies in [0, 100] and
    [nextTier] is the tier above (none for platinum); a tier spelled as
    User.js's enum ('Bronze', 'Silver', ...) matches none of the handler's
    lowercase cases and always gives no next tier and progress 0. *)
Theorem stats_next_tier_progress (points : Z) :
  (0 <= points)%Z ->
  (0 <= snd (next_tier_progress (tier_lower (tier_for points)) (inject_Z points)) <= 100)%Q /\
  fst (next_tier_progress (tier_lower (tier_for points)) (inject_Z points))
    = match tier_for points with
      | Bronze => Some "silver" | Silver => Some "gold" | Gold => Some "platinum"
      | Platinum => None
      end /\
  (forall t q, next_tier_progress (tier_string t) q = (None, 0%Q)).
Proof.
  intros H0. split; [|split].
  - unfold tier_for.
    destruct (1000 <=? points)%Z eqn:E1; [simpl; lra|].
    apply Z.leb_gt in E1.
    destruct (500 <=? points)%Z eqn:E2; [|destruct (100 <=? points)%Z eqn:E3];
      simpl; apply progress_cap, progress_nonneg; try lra.
    + apply Z.leb_le in E2. rewrite Zle_Qle in E2. change (inject_Z 500) with 500%Q in E2.
      lra.
    + apply Z.leb_le in E3. rewrite Zle_Qle in E3. change (inject_Z 100) with 100%Q in E3. lra.
    + rewrite Zle_Qle in H0. change (inject_Z 0) with 0%Q in H0. lra.
  - unfold tier_for.
    destruct (1000 <=? points)%Z; [done|].
    destruct (500 <=? points)%Z; [done|].
    by destruct (100 <=? points)%Z.
  - by intros [] q.
Qed.

Lemma stats_next_tier_progress_witness :
  (0 <= snd (next_tier_progress (tier_lower (tier_for 300)) (inject_Z 300)) <= 100)%Q.
Proof.
  assert (H : (0 <= 300)%Z) by lia.
  apply (stats_next_tier_progress 300 H).
Defined.

(** X18: the login of src/routes/auth.js never resets [failedLoginAttempts]
    when a lock expires; only a successful login does. So once an account
    has reached four failures, every later failed attempt made while it is
    not locked locks it again for 15 minutes. *)
Theorem login_auth_relocks_after_expiry (now : Z) (u : User) :
  4 <= failedLoginAttempts u -> locked_at u now = false -> isActive u = true ->
  exists u', login_auth now false u = (InvalidCredentials, u') /\
    lockUntil u' = Some (now + 15 * 60 * 1000)%Z /\
    failedLoginAttempts u' = S (failedLoginAttempts u) /\
    (let '(r, u'') := login_auth now true u in
     r = LoginOk /\ failedLoginAttempts u'' = 0 /\ lockUntil u'' = None).
Proof.
  intros Hn Hl Ha. unfold login_auth. rewrite Hl, Ha. simpl.
  eexists. split; [reflexivity|].
  destruct (failedLoginAttempts u) as [|[|[|[|n]]]] eqn:E; try lia.
  destruct u; simpl in *; subst. by split_and!.
Qed.

Lemma login_auth_relocks_after_expiry_witness :
  exists u', login_auth 1000 false (set_failedLoginAttempts alice 5) = (InvalidCredentials, u') /\
    lockUntil u' = Some (1000 + 15 * 60 * 1000)%Z.
Proof.
  assert (H4 : 4 <= failedLoginAttempts (set_failedLoginAttempts alice 5)) by (simpl; lia).
  destruct (login_auth_relocks_after_expiry 1000 (set_failedLoginAttempts alice 5)
              H4 eq_refl eq_refl) as (u' & H1 & H2 & _).
  exists u'. split; assumption.
Defined.
